(** * Travel switch: hold-to-confirm power-down state machine

    A shallow embedding of [modules/travel_switch/src/travel_switch.c]
    and the properties of its hold / blink / soft-off protocol.

    The C file keeps four file-scope variables ([state],
    [blink_remaining], [blink_led_is_on], [switch_pressed]) and talks to
    Zephyr through the LED line, three delayable work items, one plain
    work item and [sys_poweroff].  The record [sys] holds the four
    variables together with the part of the kernel the handlers can
    influence; every C function of type [void f(void)] becomes a
    function [sys -> sys]. *)

From Stdlib Require Import ZArith List Bool Lia.
Import ListNotations.

Local Open Scope Z_scope.

(** ** Data *)

Inductive travel_state : Type :=
| STATE_IDLE
| STATE_HOLD_PENDING
| STATE_LED_COOLDOWN
| STATE_BLINK_SEQUENCE
| STATE_WAKEUP_HOLD_PENDING
| STATE_SHUTTING_DOWN.

Definition travel_state_eqb (a b : travel_state) : bool :=
  match a, b with
  | STATE_IDLE, STATE_IDLE
  | STATE_HOLD_PENDING, STATE_HOLD_PENDING
  | STATE_LED_COOLDOWN, STATE_LED_COOLDOWN
  | STATE_BLINK_SEQUENCE, STATE_BLINK_SEQUENCE
  | STATE_WAKEUP_HOLD_PENDING, STATE_WAKEUP_HOLD_PENDING
  | STATE_SHUTTING_DOWN, STATE_SHUTTING_DOWN => true
  | _, _ => false
  end.

(** The three [K_WORK_DELAYABLE_DEFINE] items. *)
Inductive delayable : Type :=
| hold_timer_work
| led_timeout_work
| blink_step_work.

(** Devicetree properties of the [zmk,travel-switch] node, all
    [uint32_t]. *)
Record config : Type := mkConfig {
  hold_time_ms : Z;
  led_timeout_ms : Z;
  blink_count : Z;
  blink_interval_ms : Z
}.

Definition UINT32_MAX : Z := 4294967295.

Definition uint32 (z : Z) : Prop := 0 <= z <= UINT32_MAX.

Definition wrap32 (z : Z) : Z := z mod (UINT32_MAX + 1).

Definition config_ok (c : config) : Prop :=
  uint32 (hold_time_ms c) /\ uint32 (led_timeout_ms c) /\
  uint32 (blink_count c) /\ uint32 (blink_interval_ms c).

(** What a handler does to the outside world, in program order.  Stores
    to [state] are recorded too, so that the sequence of states a
    handler goes through can be read off the trace. *)
Inductive action : Type :=
| AState (s : travel_state)
| ALedConfigure
| ALed (level : bool)
| ASchedule (w : delayable) (ms : Z)
| ACancel (w : delayable)
| ASubmit
| APoweroff.

Record sys : Type := mkSys {
  (* the file-scope variables *)
  state : travel_state;
  blink_remaining : Z;
  blink_led_is_on : bool;
  switch_pressed : bool;
  (* the LED line, as last written *)
  led_level : bool;
  (* delayable work: [Some ms] while scheduled and not yet run *)
  hold_timer : option Z;
  led_timeout : option Z;
  blink_step : option Z;
  (* [soft_off_work] submitted and not yet run *)
  soft_off_queued : bool;
  (* number of calls of [sys_poweroff] *)
  poweroffs : nat;
  trace : list action
}.

(** The variables as the C runtime initialises them, nothing scheduled. *)
Definition boot_sys : sys :=
  mkSys STATE_IDLE 0 false false false None None None false 0%nat [].

(** ** Commands *)

Definition cmd : Type := sys -> sys.

Definition seq (a b : cmd) : cmd := fun m => b (a m).

Notation "a ;; b" := (seq a b) (at level 61, right associativity).

Definition emit (a : action) : cmd := fun m =>
  mkSys (state m) (blink_remaining m) (blink_led_is_on m) (switch_pressed m)
        (led_level m) (hold_timer m) (led_timeout m) (blink_step m)
        (soft_off_queued m) (poweroffs m) (trace m ++ [a]).

Definition store_state (s : travel_state) : cmd := fun m =>
  mkSys s (blink_remaining m) (blink_led_is_on m) (switch_pressed m)
        (led_level m) (hold_timer m) (led_timeout m) (blink_step m)
        (soft_off_queued m) (poweroffs m) (trace m).

Definition set_state (s : travel_state) : cmd :=
  store_state s ;; emit (AState s).

Definition set_blink_remaining (r : Z) : cmd := fun m =>
  mkSys (state m) r (blink_led_is_on m) (switch_pressed m)
        (led_level m) (hold_timer m) (led_timeout m) (blink_step m)
        (soft_off_queued m) (poweroffs m) (trace m).

Definition set_blink_led_is_on (b : bool) : cmd := fun m =>
  mkSys (state m) (blink_remaining m) b (switch_pressed m)
        (led_level m) (hold_timer m) (led_timeout m) (blink_step m)
        (soft_off_queued m) (poweroffs m) (trace m).

Definition set_switch_pressed (b : bool) : cmd := fun m =>
  mkSys (state m) (blink_remaining m) (blink_led_is_on m) b
        (led_level m) (hold_timer m) (led_timeout m) (blink_step m)
        (soft_off_queued m) (poweroffs m) (trace m).

Definition set_led_level (b : bool) : cmd := fun m =>
  mkSys (state m) (blink_remaining m) (blink_led_is_on m) (switch_pressed m)
        b (hold_timer m) (led_timeout m) (blink_step m)
        (soft_off_queued m) (poweroffs m) (trace m).

Definition pending (w : delayable) (m : sys) : option Z :=
  match w with
  | hold_timer_work => hold_timer m
  | led_timeout_work => led_timeout m
  | blink_step_work => blink_step m
  end.

Definition set_pending (w : delayable) (p : option Z) : cmd := fun m =>
  match w with
  | hold_timer_work =>
      mkSys (state m) (blink_remaining m) (blink_led_is_on m)
            (switch_pressed m) (led_level m) p (led_timeout m)
            (blink_step m) (soft_off_queued m) (poweroffs m) (trace m)
  | led_timeout_work =>
      mkSys (state m) (blink_remaining m) (blink_led_is_on m)
            (switch_pressed m) (led_level m) (hold_timer m) p
            (blink_step m) (soft_off_queued m) (poweroffs m) (trace m)
  | blink_step_work =>
      mkSys (state m) (blink_remaining m) (blink_led_is_on m)
            (switch_pressed m) (led_level m) (hold_timer m) (led_timeout m)
            p (soft_off_queued m) (poweroffs m) (trace m)
  end.

Definition set_soft_off_queued (b : bool) : cmd := fun m =>
  mkSys (state m) (blink_remaining m) (blink_led_is_on m) (switch_pressed m)
        (led_level m) (hold_timer m) (led_timeout m) (blink_step m)
        b (poweroffs m) (trace m).

(** *** The kernel services the module calls *)

(** [gpio_pin_set_dt(&led_gpio, v)]. *)
Definition gpio_pin_set_led (v : bool) : cmd :=
  set_led_level v ;; emit (ALed v).

(** [k_work_schedule(&w, K_MSEC(ms))]: arms [w] unless it is already
    scheduled, in which case the earlier deadline stays. *)
Definition k_work_schedule (w : delayable) (ms : Z) : cmd :=
  (fun m => match pending w m with
            | None => set_pending w (Some ms) m
            | Some _ => m
            end) ;; emit (ASchedule w ms).

(** [k_work_cancel_delayable(&w)]. *)
Definition k_work_cancel_delayable (w : delayable) : cmd :=
  set_pending w None ;; emit (ACancel w).

(** [k_work_submit(&soft_off_work)]: queueing a work item that is
    already queued leaves one entry. *)
Definition k_work_submit_soft_off : cmd :=
  set_soft_off_queued true ;; emit ASubmit.

(** [sys_poweroff] is Zephyr's; its body is not part of this module.
    The call is counted and recorded in the trace.  Nothing is assumed
    about what the platform does afterwards: the model lets execution go
    on, so whatever a handler could still do is covered. *)
Definition sys_poweroff : cmd := fun m =>
  emit APoweroff
    (mkSys (state m) (blink_remaining m) (blink_led_is_on m)
           (switch_pressed m) (led_level m) (hold_timer m) (led_timeout m)
           (blink_step m) (soft_off_queued m) (S (poweroffs m)) (trace m)).

(** ** The module *)

Section Module.

Variable cfg : config.

Definition led_on : cmd := gpio_pin_set_led true.

Definition led_off : cmd := gpio_pin_set_led false.

Definition enter_soft_off : cmd :=
  set_state STATE_SHUTTING_DOWN ;;
  led_off ;;
  sys_poweroff.

Definition soft_off_handler : cmd := enter_soft_off.

Definition start_blink_sequence : cmd :=
  set_state STATE_BLINK_SEQUENCE ;;
  set_blink_remaining (blink_count cfg) ;;
  set_blink_led_is_on false ;;
  led_off ;;
  k_work_schedule blink_step_work (blink_interval_ms cfg / 2).

Definition hold_timer_handler : cmd := fun m =>
  match state m with
  | STATE_HOLD_PENDING | STATE_WAKEUP_HOLD_PENDING => start_blink_sequence m
  | _ => m
  end.

Definition led_timeout_handler : cmd := fun m =>
  match state m with
  | STATE_LED_COOLDOWN => (led_off ;; set_state STATE_IDLE) m
  | _ => m
  end.

Definition blink_step_handler : cmd := fun m =>
  if negb (travel_state_eqb (state m) STATE_BLINK_SEQUENCE) then m
  else if blink_remaining m =? 0 then
    (led_off ;;
     fun m' => if negb (switch_pressed m') then enter_soft_off m' else m') m
  else if negb (blink_led_is_on m) then
    (led_on ;;
     set_blink_led_is_on true ;;
     k_work_schedule blink_step_work (blink_interval_ms cfg / 2)) m
  else
    (led_off ;;
     set_blink_led_is_on false ;;
     (fun m' => set_blink_remaining (wrap32 (blink_remaining m' - 1)) m') ;;
     k_work_schedule blink_step_work (blink_interval_ms cfg / 2)) m.

Definition on_press : cmd :=
  set_switch_pressed true ;;
  fun m =>
    match state m with
    | STATE_IDLE =>
        (set_state STATE_HOLD_PENDING ;;
         led_on ;;
         k_work_schedule hold_timer_work (hold_time_ms cfg)) m
    | STATE_LED_COOLDOWN =>
        (k_work_cancel_delayable led_timeout_work ;;
         set_state STATE_HOLD_PENDING ;;
         led_on ;;
         k_work_schedule hold_timer_work (hold_time_ms cfg)) m
    | STATE_BLINK_SEQUENCE
    | STATE_HOLD_PENDING
    | STATE_WAKEUP_HOLD_PENDING
    | STATE_SHUTTING_DOWN => m
    end.

Definition on_release : cmd :=
  set_switch_pressed false ;;
  fun m =>
    match state m with
    | STATE_HOLD_PENDING =>
        (k_work_cancel_delayable hold_timer_work ;;
         set_state STATE_LED_COOLDOWN ;;
         k_work_schedule led_timeout_work (led_timeout_ms cfg)) m
    | STATE_WAKEUP_HOLD_PENDING =>
        (k_work_cancel_delayable hold_timer_work ;;
         led_off ;;
         enter_soft_off) m
    | STATE_BLINK_SEQUENCE =>
        if blink_remaining m =? 0 then k_work_submit_soft_off m else m
    | STATE_IDLE
    | STATE_LED_COOLDOWN
    | STATE_SHUTTING_DOWN => m
    end.

(** [struct input_event], the two fields the callback reads. *)
Record input_event : Type := mkInputEvent {
  code : Z;
  value : Z
}.

(** [INPUT_KEY_POWER] of [dt-bindings/input/input-event-codes.h]. *)
Definition INPUT_KEY_POWER : Z := 116.

Definition travel_switch_input_cb (evt : input_event) : cmd := fun m =>
  if negb (code evt =? INPUT_KEY_POWER) then m
  else if negb (value evt =? 0) then on_press m
  else on_release m.

(** What the GPIO driver answers during [travel_switch_init]:
    [gpio_is_ready_dt] and [gpio_pin_configure_dt] for the LED line,
    then the same two and [gpio_pin_get_dt] for the switch line of the
    [travel_key] node.  The [int] results are negative on error. *)
Record boot_env : Type := mkBootEnv {
  led_gpio_ready : bool;
  led_gpio_configure : Z;
  switch_gpio_ready : bool;
  switch_gpio_configure : Z;
  switch_gpio_get : Z
}.

Definition ENODEV : Z := 19.

(** [gpio_pin_configure_dt(&led_gpio, GPIO_OUTPUT_INACTIVE)], when it
    succeeds, leaves the line driven inactive. *)
Definition led_configured : cmd :=
  set_led_level false ;; emit ALedConfigure.

(** The pair is the returned [int] and the machine.  On the last
    branch the C function goes from [enter_soft_off] on to [return 0];
    the 0 is what it returns should [sys_poweroff] return. *)
Definition travel_switch_init (env : boot_env) (m : sys) : Z * sys :=
  if negb (led_gpio_ready env) then (- ENODEV, m)
  else
    let ret := led_gpio_configure env in
    if ret <? 0 then (ret, m)
    else
      let m := led_configured m in
      if negb (switch_gpio_ready env) then (0, set_state STATE_IDLE m)
      else
        let ret := switch_gpio_configure env in
        if ret <? 0 then (0, set_state STATE_IDLE m)
        else
          let pin_state := switch_gpio_get env in
          if pin_state <? 0 then (0, set_state STATE_IDLE m)
          else if negb (pin_state =? 0) then
            (0, (set_switch_pressed true ;;
                 set_state STATE_WAKEUP_HOLD_PENDING ;;
                 led_on ;;
                 k_work_schedule hold_timer_work (hold_time_ms cfg)) m)
          else
            (0, enter_soft_off m).

(** ** Events *)

(** The two input notifications, the three timer expiries and the run
    of the deferred [soft_off_work]. *)
Inductive event : Type :=
| Press
| Release
| HoldTimer
| LedTimeout
| BlinkStep
| SoftOff.

(** The handler an event runs, whatever the kernel state. *)
Definition handle (e : event) : cmd :=
  match e with
  | Press => on_press
  | Release => on_release
  | HoldTimer => hold_timer_handler
  | LedTimeout => led_timeout_handler
  | BlinkStep => blink_step_handler
  | SoftOff => soft_off_handler
  end.

(** One event as the platform delivers it, handlers serialised: a
    delayable item runs only while scheduled and is no longer scheduled
    when its handler starts; [soft_off_work] runs only when queued and
    is no longer queued when its handler starts. *)
Definition deliver (e : event) : cmd := fun m =>
  match e with
  | Press => on_press m
  | Release => on_release m
  | HoldTimer =>
      match hold_timer m with
      | Some _ => hold_timer_handler (set_pending hold_timer_work None m)
      | None => m
      end
  | LedTimeout =>
      match led_timeout m with
      | Some _ => led_timeout_handler (set_pending led_timeout_work None m)
      | None => m
      end
  | BlinkStep =>
      match blink_step m with
      | Some _ => blink_step_handler (set_pending blink_step_work None m)
      | None => m
      end
  | SoftOff =>
      if soft_off_queued m
      then soft_off_handler (set_soft_off_queued false m)
      else m
  end.

Definition run (evs : list event) (m : sys) : sys :=
  fold_left (fun m e => deliver e m) evs m.

(** The system after boot. *)
Definition boot (env : boot_env) : sys := snd (travel_switch_init env boot_sys).

Inductive reachable : sys -> Prop :=
| reach_boot : forall env, reachable (boot env)
| reach_deliver : forall e m, reachable m -> reachable (deliver e m).

End Module.

Arguments reachable cfg m : assert.

(** ** Vocabulary of the properties *)

(** The values stored to [state], in order. *)
Fixpoint states_of (t : list action) : list travel_state :=
  match t with
  | [] => []
  | AState s :: t' => s :: states_of t'
  | _ :: t' => states_of t'
  end.

(** The levels written to the LED line, in order. *)
Fixpoint leds_of (t : list action) : list bool :=
  match t with
  | [] => []
  | ALed v :: t' => v :: leds_of t'
  | _ :: t' => leds_of t'
  end.

(** The timers armed, in order. *)
Fixpoint schedules_of (t : list action) : list delayable :=
  match t with
  | [] => []
  | ASchedule w _ :: t' => w :: schedules_of t'
  | _ :: t' => schedules_of t'
  end.

(** What was appended to the trace between [m] and a later [m']. *)
Definition since (m m' : sys) : list action :=
  skipn (length (trace m)) (trace m').

(** Counting blinks.  The scanner remembers whether the LED has been
    turned on within the part of the trace read so far and is still on
    ([lit]); a write of "off" while [lit] closes one on/off cycle. *)
Definition blink_scan (acc : bool * nat) (a : action) : bool * nat :=
  match a with
  | ALed true => (true, snd acc)
  | ALed false => (false, if fst acc then S (snd acc) else snd acc)
  | _ => acc
  end.

Definition on_off_cycles (t : list action) : nat :=
  snd (fold_left blink_scan t (false, 0%nat)).

(** The held flag agrees with the state tag. *)
Definition held_consistent (m : sys) : Prop :=
  match state m with
  | STATE_HOLD_PENDING | STATE_WAKEUP_HOLD_PENDING => switch_pressed m = true
  | STATE_IDLE | STATE_LED_COOLDOWN => switch_pressed m = false
  | STATE_BLINK_SEQUENCE | STATE_SHUTTING_DOWN => True
  end.

(** A blink sequence has run to its end: either the terminal action was
    taken, or the machine sits in [STATE_BLINK_SEQUENCE] with no step
    timer left, waiting for the release. *)
Definition blink_finished (m : sys) : Prop :=
  state m = STATE_SHUTTING_DOWN \/
  (state m = STATE_BLINK_SEQUENCE /\ blink_step m = None).

(** A machine about to confirm a hold: in one of the two pending states
    with the hold timer armed, no power-off so far, and nothing of the
    blink sequence under way. *)
Definition hold_armed (m : sys) : Prop :=
  (state m = STATE_HOLD_PENDING \/ state m = STATE_WAKEUP_HOLD_PENDING) /\
  hold_timer m <> None /\ blink_step m = None /\
  soft_off_queued m = false /\ poweroffs m = 0%nat.

(** Step-timer firings a blink sequence still needs, the closing one
    included. *)
Definition steps_left (m : sys) : nat :=
  (2 * Z.to_nat (blink_remaining m) + (if blink_led_is_on m then 0 else 1))%nat.

Definition no_press (evs : list event) : Prop := ~ In Press evs.

Definition blink_or_soft_off (e : event) : Prop := e = BlinkStep \/ e = SoftOff.

Definition event_eq_dec (a b : event) : {a = b} + {a <> b}.
Proof. decide equality. Defined.

(** The states a release leaves the machine in when no hold was
    confirmed. *)
Definition resting (m : sys) : Prop :=
  state m = STATE_IDLE \/ state m = STATE_LED_COOLDOWN \/
  state m = STATE_SHUTTING_DOWN.

(** What holds throughout a blink sequence before any power-off: the
    count stays within the configured one, the LED phase is on only
    with blinks left, [soft_off_work] is queued only with none left, and
    the step timer is missing only when the sequence is over. *)
Definition blink_inv (cfg : config) (m : sys) : Prop :=
  state m = STATE_BLINK_SEQUENCE /\
  poweroffs m = 0%nat /\
  0 <= blink_remaining m <= blink_count cfg /\
  (blink_led_is_on m = true -> 0 < blink_remaining m) /\
  (soft_off_queued m = true -> blink_remaining m = 0) /\
  (blink_step m = None ->
   blink_remaining m = 0 /\ blink_led_is_on m = false).

(** [m] is a later stage of the blink sequence entered from [m0]: the
    trace has grown by [suf], and scanning [suf] gives the LED phase and
    the number of blinks done. *)
Definition blink_progress (cfg : config) (m0 m : sys) : Prop :=
  exists suf,
    trace m = trace m0 ++ suf /\
    ((blink_inv cfg m /\
      fold_left blink_scan suf (false, 0%nat)
      = (blink_led_is_on m,
         Z.to_nat (blink_count cfg - blink_remaining m)))
     \/
     (state m = STATE_SHUTTING_DOWN /\
      fold_left blink_scan suf (false, 0%nat)
      = (false, Z.to_nat (blink_count cfg)))).

(** The step timer is armed in a running blink sequence whose counters
    are sane. *)
Definition blinking (m : sys) : Prop :=
  state m = STATE_BLINK_SEQUENCE /\
  poweroffs m = 0%nat /\
  blink_step m <> None /\
  0 <= blink_remaining m <= UINT32_MAX /\
  (blink_led_is_on m = true -> 0 < blink_remaining m).

(** The LED is lit in the three states that show a press. *)
Definition lit_while_pending (m : sys) : Prop :=
  match state m with
  | STATE_HOLD_PENDING | STATE_LED_COOLDOWN | STATE_WAKEUP_HOLD_PENDING =>
      led_level m = true
  | STATE_IDLE | STATE_BLINK_SEQUENCE | STATE_SHUTTING_DOWN => True
  end.

(** Outside the blink sequence nothing of it is under way: no step timer,
    no queued [soft_off_work], no power-off so far; and in the two pending
    states the hold timer is armed. *)
Definition pending_inv (m : sys) : Prop :=
  match state m with
  | STATE_HOLD_PENDING | STATE_WAKEUP_HOLD_PENDING =>
      hold_timer m <> None /\ blink_step m = None /\
      soft_off_queued m = false /\ poweroffs m = 0%nat
  | STATE_IDLE | STATE_LED_COOLDOWN =>
      blink_step m = None /\ soft_off_queued m = false /\
      poweroffs m = 0%nat
  | STATE_BLINK_SEQUENCE | STATE_SHUTTING_DOWN => True
  end.

(** Which work items are outstanding in which state, and with what
    delay: the hold timer in the two pending states, the cooldown timer
    in [STATE_LED_COOLDOWN], the step timer and the deferred work only
    from the blink sequence on; and [sys_poweroff] has been called
    exactly in [STATE_SHUTTING_DOWN], once, or twice when a queued
    [soft_off_work] ran after the shutdown had begun. *)
Definition timers_inv (cfg : config) (m : sys) : Prop :=
  match state m with
  | STATE_IDLE =>
      hold_timer m = None /\ led_timeout m = None /\ blink_step m = None /\
      soft_off_queued m = false /\ poweroffs m = 0%nat
  | STATE_HOLD_PENDING | STATE_WAKEUP_HOLD_PENDING =>
      hold_timer m = Some (hold_time_ms cfg) /\ led_timeout m = None /\
      blink_step m = None /\ soft_off_queued m = false /\ poweroffs m = 0%nat
  | STATE_LED_COOLDOWN =>
      hold_timer m = None /\ led_timeout m = Some (led_timeout_ms cfg) /\
      blink_step m = None /\ soft_off_queued m = false /\ poweroffs m = 0%nat
  | STATE_BLINK_SEQUENCE =>
      hold_timer m = None /\ led_timeout m = None /\
      (blink_step m = None \/
       blink_step m = Some (blink_interval_ms cfg / 2)) /\
      (soft_off_queued m = true -> blink_remaining m = 0) /\
      poweroffs m = 0%nat
  | STATE_SHUTTING_DOWN =>
      hold_timer m = None /\ led_timeout m = None /\
      (blink_step m = None \/
       blink_step m = Some (blink_interval_ms cfg / 2)) /\
      (poweroffs m = 1%nat \/
       (poweroffs m = 2%nat /\ soft_off_queued m = false))
  end.

(** The LED line as the state tag determines it, for the states entered
    through an LED write. *)
Definition led_inv (m : sys) : Prop :=
  match state m with
  | STATE_HOLD_PENDING | STATE_LED_COOLDOWN | STATE_WAKEUP_HOLD_PENDING =>
      led_level m = true
  | STATE_BLINK_SEQUENCE =>
      led_level m = blink_led_is_on m /\
      (blink_led_is_on m = true -> blink_remaining m <> 0)
  | STATE_SHUTTING_DOWN => led_level m = false
  | STATE_IDLE => True
  end.

(** The blink counter stays between zero and the configured count. *)
Definition counter_inv (cfg : config) (m : sys) : Prop :=
  0 <= blink_remaining m <= blink_count cfg.

(** The shutdown is under way: blinking, or already shutting down. *)
Definition committed (m : sys) : Prop :=
  state m = STATE_BLINK_SEQUENCE \/ state m = STATE_SHUTTING_DOWN.

(** The answers of the GPIO driver that let initialisation reach the read
    of the switch line. *)
Definition lines_ok (env : boot_env) : Prop :=
  led_gpio_ready env = true /\ 0 <= led_gpio_configure env /\
  switch_gpio_ready env = true /\ 0 <= switch_gpio_configure env.

(** A key event of the monitored switch. *)
Definition power_key (v : Z) : input_event := mkInputEvent INPUT_KEY_POWER v.

(** In the blink sequence the step timer is missing only after the
    closing step, that is, with no blinks left. *)
Definition closing_inv (m : sys) : Prop :=
  state m = STATE_BLINK_SEQUENCE -> blink_step m = None ->
  blink_remaining m = 0.

(** ** Sample configuration and states *)

(** Two-second hold, three-second cooldown, three blinks of 400 ms. *)
Definition sample_cfg : config := mkConfig 2000 3000 3 400.

(** Everything ready, switch held at boot. *)
Definition env_held : boot_env := mkBootEnv true 0 true 0 1.

(** Everything ready, switch not held at boot. *)
Definition env_released : boot_env := mkBootEnv true 0 true 0 0.

(** LED line fine, switch line not ready. *)
Definition env_switch_not_ready : boot_env := mkBootEnv true 0 false 0 0.

(** Neither the LED line nor the switch line is ready. *)
Definition env_nothing_ready : boot_env := mkBootEnv false 0 false 0 0.

(** After a cold boot and one press: [STATE_HOLD_PENDING]. *)
Definition sample_hold_pending : sys :=
  Eval vm_compute in
    run sample_cfg [Press] (boot sample_cfg env_switch_not_ready).

(** Pressed and released early: [STATE_LED_COOLDOWN]. *)
Definition sample_cooldown : sys :=
  Eval vm_compute in
    run sample_cfg [Press; Release] (boot sample_cfg env_switch_not_ready).

(** Woken with the switch held: [STATE_WAKEUP_HOLD_PENDING]. *)
Definition sample_wakeup : sys :=
  Eval vm_compute in boot sample_cfg env_held.

(** Woken with the switch released: [STATE_SHUTTING_DOWN]. *)
Definition sample_shut : sys :=
  Eval vm_compute in boot sample_cfg env_released.

(** In the blink sequence, LED lit, one cycle to go, switch released. *)
Definition sample_last_blink : sys :=
  Eval vm_compute in
    run sample_cfg
        [Press; HoldTimer; Release; BlinkStep; BlinkStep; BlinkStep;
         BlinkStep; BlinkStep]
        (boot sample_cfg env_switch_not_ready).

(** ** Proof support *)

(** Handlers are run on a state given field by field; reducing by value
    keeps the intermediate records small. *)
Ltac unfold_cmds :=
  cbv beta iota zeta delta
    [handle on_press on_release hold_timer_handler led_timeout_handler
     blink_step_handler soft_off_handler start_blink_sequence enter_soft_off
     led_on led_off led_configured k_work_schedule k_work_cancel_delayable
     k_work_submit_soft_off sys_poweroff gpio_pin_set_led set_state
     store_state set_blink_remaining set_blink_led_is_on set_switch_pressed
     set_led_level set_pending set_soft_off_queued emit seq pending
     negb travel_state_eqb
     state blink_remaining blink_led_is_on switch_pressed led_level
     hold_timer led_timeout blink_step soft_off_queued poweroffs trace] in *.

Ltac open_sys m :=
  destruct m as [st rem lit held led ht lt bs soq po tr]; cbn [state
    blink_remaining blink_led_is_on switch_pressed led_level hold_timer
    led_timeout blink_step soft_off_queued poweroffs trace] in *.

Ltac break_match :=
  repeat match goal with
         | |- context [if ?c then _ else _] => destruct c eqn:?
         | |- context [match ?o with Some _ => _ | None => _ end] =>
             destruct o eqn:?
         end.

Ltac run_cmds := unfold_cmds; cbn; break_match; cbn.

Ltac list_eq := repeat rewrite <- app_assoc; cbn [app]; reflexivity.

Ltac scan_step H :=
  rewrite fold_left_app, H; cbn; try reflexivity.

Ltac solve_inv :=
  unfold blink_inv; cbn;
  intuition (try reflexivity; try assumption; try lia; try discriminate).

Ltac zeq :=
  repeat match goal with
         | H : (_ =? _) = true |- _ => apply Z.eqb_eq in H
         | H : (_ =? _) = false |- _ => apply Z.eqb_neq in H
         end.

Ltac split_hyps :=
  repeat match goal with
         | H : _ /\ _ |- _ => destruct H
         end.

Ltac solve_parts :=
  zeq;
  intuition (try reflexivity; try assumption; try discriminate;
             try congruence; try lia).

Ltac run_events :=
  cbv beta iota zeta delta
    [run fold_left deliver
     handle on_press on_release hold_timer_handler led_timeout_handler
     blink_step_handler soft_off_handler start_blink_sequence enter_soft_off
     led_on led_off led_configured k_work_schedule k_work_cancel_delayable
     k_work_submit_soft_off sys_poweroff gpio_pin_set_led set_state
     store_state set_blink_remaining set_blink_led_is_on set_switch_pressed
     set_led_level set_pending set_soft_off_queued emit seq pending
     negb travel_state_eqb
     state blink_remaining blink_led_is_on switch_pressed led_level
     hold_timer led_timeout blink_step soft_off_queued poweroffs trace].

Lemma app_assoc_cons {A} (l : list A) a k : (l ++ [a]) ++ k = l ++ a :: k.
Proof. now rewrite <- app_assoc. Qed.

(** ** Events that are not a press never leave the resting states *)

Lemma deliver_resting cfg e m :
  e <> Press -> resting m -> resting (deliver cfg e m).
Proof.
  intros He Hr. unfold deliver, resting in *.
  open_sys m.
  destruct e; try congruence;
    destruct Hr as [-> | [-> | ->]]; run_cmds; auto.
Qed.

Lemma run_resting cfg evs : forall m,
  no_press evs -> resting m -> resting (run cfg evs m).
Proof.
  unfold no_press.
  induction evs as [|e evs IH]; intros m Hn Hr; [exact Hr|].
  cbn. apply IH.
  - intro Hin. apply Hn. now right.
  - apply deliver_resting; [|exact Hr].
    intros ->. apply Hn. now left.
Qed.

Lemma resting_not_blink m : resting m -> state m <> STATE_BLINK_SEQUENCE.
Proof. unfold resting. intros [H | [H | H]]; rewrite H; discriminate. Qed.

Lemma run_reachable cfg evs : forall m,
  reachable cfg m -> reachable cfg (run cfg evs m).
Proof.
  induction evs as [|e evs IH]; intros m Hr; [exact Hr|].
  cbn. apply IH. now apply reach_deliver.
Qed.

(** ** The input callback *)

Lemma input_cb_press cfg evt m :
  code evt = INPUT_KEY_POWER -> value evt <> 0 ->
  travel_switch_input_cb cfg evt m = on_press cfg m.
Proof.
  intros Hc Hv. unfold travel_switch_input_cb. rewrite Hc. cbn.
  destruct (value evt =? 0) eqn:E; [apply Z.eqb_eq in E; lia | reflexivity].
Qed.

Lemma input_cb_release cfg evt m :
  code evt = INPUT_KEY_POWER -> value evt = 0 ->
  travel_switch_input_cb cfg evt m = on_release cfg m.
Proof.
  intros Hc Hv. unfold travel_switch_input_cb. rewrite Hc, Hv. reflexivity.
Qed.

Lemma input_cb_other_key cfg evt m :
  code evt <> INPUT_KEY_POWER -> travel_switch_input_cb cfg evt m = m.
Proof.
  intros Hc. unfold travel_switch_input_cb.
  destruct (code evt =? INPUT_KEY_POWER) eqn:E;
    [apply Z.eqb_eq in E; congruence | reflexivity].
Qed.

(** ** C1: how the machine gets into the blink sequence *)

(** C1.  A handler takes the machine from another state into
    [STATE_BLINK_SEQUENCE] exactly when it is the hold-timer handler
    running in [STATE_HOLD_PENDING] or [STATE_WAKEUP_HOLD_PENDING]; the
    same holds for events as the platform delivers them, where the timer
    must also be armed; booting never lands in
    the blink sequence; and after a release in one of the two pending
    states the hold timer is cancelled, a stale expiry would not start
    the sequence, and no run of events without a new press does. *)
Theorem blink_entry_iff_hold_timer (cfg : config) :
  (forall e m,
      (state m <> STATE_BLINK_SEQUENCE /\
       state (handle cfg e m) = STATE_BLINK_SEQUENCE)
      <->
      (e = HoldTimer /\
       (state m = STATE_HOLD_PENDING \/ state m = STATE_WAKEUP_HOLD_PENDING)))
  /\
  (forall e m,
      (state m <> STATE_BLINK_SEQUENCE /\
       state (deliver cfg e m) = STATE_BLINK_SEQUENCE)
      <->
      (e = HoldTimer /\ hold_timer m <> None /\
       (state m = STATE_HOLD_PENDING \/ state m = STATE_WAKEUP_HOLD_PENDING)))
  /\
  (forall env, state (boot cfg env) <> STATE_BLINK_SEQUENCE)
  /\
  (forall m,
      state m = STATE_HOLD_PENDING \/ state m = STATE_WAKEUP_HOLD_PENDING ->
      hold_timer (on_release cfg m) = None /\
      state (hold_timer_handler cfg (on_release cfg m))
        <> STATE_BLINK_SEQUENCE /\
      forall evs, no_press evs ->
        state (run cfg evs (on_release cfg m)) <> STATE_BLINK_SEQUENCE).
Proof.
  split; [|split; [|split]].
  - intros e m. open_sys m. split.
    + intros [Hne Hs]. revert Hs.
      destruct e, st; run_cmds; intros; try congruence; auto.
    + intros [-> [-> | ->]]; run_cmds; split; congruence.
  - intros e m. unfold deliver. open_sys m. split.
    + intros [Hne Hs]. revert Hs.
      destruct e, st; run_cmds; intros; try congruence;
        repeat split; auto; congruence.
    + intros [-> [Hht [-> | ->]]];
        destruct ht; try congruence; run_cmds; split; congruence.
  - intros env. unfold boot, travel_switch_init.
    break_match; unfold boot_sys; run_cmds; discriminate.
  - intros m Hst. split; [|split].
    + open_sys m. destruct Hst as [-> | ->]; run_cmds; reflexivity.
    + open_sys m. destruct Hst as [-> | ->]; run_cmds; discriminate.
    + intros evs Hn. apply resting_not_blink, run_resting; [exact Hn|].
      unfold resting. open_sys m.
      destruct Hst as [-> | ->]; run_cmds; auto.
Qed.

Lemma blink_entry_iff_hold_timer_witness :
  (state sample_hold_pending <> STATE_BLINK_SEQUENCE /\
   state (handle sample_cfg HoldTimer sample_hold_pending)
     = STATE_BLINK_SEQUENCE) /\
  state (run sample_cfg [HoldTimer; LedTimeout; BlinkStep; SoftOff]
             (on_release sample_cfg sample_wakeup)) <> STATE_BLINK_SEQUENCE.
Proof.
  destruct (blink_entry_iff_hold_timer sample_cfg) as [Hh [_ [_ Hr]]].
  split.
  - apply Hh. split; [reflexivity | left; reflexivity].
  - destruct (Hr sample_wakeup) as [_ [_ Hrun]]; [right; reflexivity|].
    apply (Hrun [HoldTimer; LedTimeout; BlinkStep; SoftOff]).
    unfold no_press. cbn. intuition discriminate.
Defined.

(** ** C3: nothing happens in the shutting-down state *)

(** C3.  In [STATE_SHUTTING_DOWN] a press, a release and each of the
    three timer handlers leave the state tag, the LED line, the three
    timers and the trace as they were: no LED write is issued and no
    timer is scheduled.  Delivered by the platform, the same events
    leave state, LED and trace alone and arm no timer. *)
Theorem shutting_down_absorbing (cfg : config) (e : event) (m : sys) :
  e <> SoftOff ->
  state m = STATE_SHUTTING_DOWN ->
  (state (handle cfg e m) = STATE_SHUTTING_DOWN /\
   led_level (handle cfg e m) = led_level m /\
   trace (handle cfg e m) = trace m /\
   forall w, pending w (handle cfg e m) = pending w m)
  /\
  (state (deliver cfg e m) = STATE_SHUTTING_DOWN /\
   led_level (deliver cfg e m) = led_level m /\
   trace (deliver cfg e m) = trace m /\
   forall w, pending w (deliver cfg e m) = pending w m \/
             pending w (deliver cfg e m) = None).
Proof.
  intros He Hst. open_sys m. subst st. split.
  - destruct e; try congruence; run_cmds; repeat split; auto.
  - unfold deliver.
    destruct e; try congruence; run_cmds; repeat split; auto;
      intros w; destruct w; cbn; auto.
Qed.

Lemma shutting_down_absorbing_witness :
  state (handle sample_cfg Press sample_shut) = STATE_SHUTTING_DOWN /\
  trace (handle sample_cfg BlinkStep sample_shut) = trace sample_shut /\
  trace (deliver sample_cfg HoldTimer sample_shut) = trace sample_shut.
Proof.
  split; [|split].
  - apply (shutting_down_absorbing sample_cfg Press sample_shut);
      [discriminate | reflexivity].
  - apply (shutting_down_absorbing sample_cfg BlinkStep sample_shut);
      [discriminate | reflexivity].
  - apply (shutting_down_absorbing sample_cfg HoldTimer sample_shut);
      [discriminate | reflexivity].
Defined.

(** ** C6: short press, cooldown, re-press *)

Lemma deliver_lit_while_pending cfg e m :
  lit_while_pending m -> lit_while_pending (deliver cfg e m).
Proof.
  unfold lit_while_pending, deliver. open_sys m.
  destruct e, st; run_cmds; auto.
Qed.

Lemma boot_lit_while_pending cfg env : lit_while_pending (boot cfg env).
Proof.
  unfold lit_while_pending, boot, travel_switch_init, boot_sys.
  break_match; run_cmds; auto.
Qed.

Lemma reachable_lit_while_pending cfg m :
  reachable cfg m -> lit_while_pending m.
Proof.
  induction 1; [apply boot_lit_while_pending|].
  now apply deliver_lit_while_pending.
Qed.

(** C6.  A release in [STATE_HOLD_PENDING] cancels the hold timer,
    stores [STATE_LED_COOLDOWN] and asks for the cooldown timer, and
    does nothing else: the LED is not written and the blink sequence is
    not entered.  A press in [STATE_LED_COOLDOWN] cancels the cooldown
    timer, stores [STATE_HOLD_PENDING], writes the LED on and asks for
    the hold timer; the LED is never written off.  The cooldown handler
    in [STATE_LED_COOLDOWN] writes the LED off and stores
    [STATE_IDLE].  In the states reachable from boot the LED is on in
    both [STATE_HOLD_PENDING] and [STATE_LED_COOLDOWN], so it stays on
    from the press through the release and the second press. *)
Theorem short_press_cooldown (cfg : config) (m : sys) :
  (state m = STATE_HOLD_PENDING ->
   let m' := on_release cfg m in
   state m' = STATE_LED_COOLDOWN /\
   hold_timer m' = None /\
   led_level m' = led_level m /\
   trace m' = trace m ++ [ACancel hold_timer_work;
                          AState STATE_LED_COOLDOWN;
                          ASchedule led_timeout_work (led_timeout_ms cfg)])
  /\
  (state m = STATE_LED_COOLDOWN ->
   let m' := on_press cfg m in
   state m' = STATE_HOLD_PENDING /\
   led_timeout m' = None /\
   led_level m' = true /\
   trace m' = trace m ++ [ACancel led_timeout_work;
                          AState STATE_HOLD_PENDING;
                          ALed true;
                          ASchedule hold_timer_work (hold_time_ms cfg)])
  /\
  (state m = STATE_LED_COOLDOWN ->
   let m' := led_timeout_handler m in
   state m' = STATE_IDLE /\
   led_level m' = false /\
   trace m' = trace m ++ [ALed false; AState STATE_IDLE])
  /\
  (reachable cfg m ->
   state m = STATE_HOLD_PENDING \/ state m = STATE_LED_COOLDOWN ->
   led_level m = true).
Proof.
  split; [|split; [|split]].
  4:{ intros Hr Hst. apply (reachable_lit_while_pending cfg) in Hr.
      unfold lit_while_pending in Hr.
      destruct Hst as [Hst | Hst]; rewrite Hst in Hr; exact Hr. }
  all: open_sys m; intros ->; run_cmds;
    repeat rewrite app_assoc_cons; repeat split; reflexivity.
Qed.

Lemma short_press_cooldown_witness :
  state (on_release sample_cfg sample_hold_pending) = STATE_LED_COOLDOWN /\
  state (on_press sample_cfg sample_cooldown) = STATE_HOLD_PENDING /\
  led_level (led_timeout_handler sample_cooldown) = false /\
  led_level
    (run sample_cfg [Press; Release] (boot sample_cfg env_switch_not_ready))
  = true.
Proof.
  split; [|split; [|split]].
  - apply (short_press_cooldown sample_cfg sample_hold_pending). reflexivity.
  - apply (short_press_cooldown sample_cfg sample_cooldown). reflexivity.
  - apply (short_press_cooldown sample_cfg sample_cooldown). reflexivity.
  - apply (short_press_cooldown sample_cfg).
    + apply run_reachable, reach_boot.
    + right. vm_compute. reflexivity.
Defined.

(** ** C7: release during wake-up validation *)

(** C7.  A release in [STATE_WAKEUP_HOLD_PENDING], whether the hold
    timer is still armed or not, cancels the hold timer, writes the LED
    off and runs [enter_soft_off] within the handler itself:
    [sys_poweroff] is called once more than before and [soft_off_work]
    is not submitted. *)
Theorem wakeup_release_powers_off (cfg : config) (m : sys) :
  state m = STATE_WAKEUP_HOLD_PENDING ->
  let m' := on_release cfg m in
  trace m' = trace m ++ [ACancel hold_timer_work; ALed false;
                         AState STATE_SHUTTING_DOWN; ALed false; APoweroff] /\
  hold_timer m' = None /\
  led_level m' = false /\
  state m' = STATE_SHUTTING_DOWN /\
  poweroffs m' = S (poweroffs m) /\
  soft_off_queued m' = soft_off_queued m /\
  deliver cfg Release m = m'.
Proof.
  intros Hst. open_sys m. subst st. unfold deliver.
  run_cmds; repeat rewrite app_assoc_cons; repeat split; try reflexivity;
    try discriminate.
Qed.

Lemma wakeup_release_powers_off_witness :
  poweroffs (on_release sample_cfg sample_wakeup) = 1%nat /\
  soft_off_queued (on_release sample_cfg sample_wakeup) = false.
Proof.
  split.
  - apply (wakeup_release_powers_off sample_cfg sample_wakeup). reflexivity.
  - apply (wakeup_release_powers_off sample_cfg sample_wakeup). reflexivity.
Defined.

(** ** C8: spurious wake *)

(** C8.  When both GPIO lines come up and the switch reads 0 at boot,
    initialisation configures the LED line inactive and goes straight
    into [enter_soft_off]: the only value ever stored to [state] is
    [STATE_SHUTTING_DOWN], the LED line is never written on, and
    [sys_poweroff] has been called. *)
Theorem spurious_wake_powers_off (cfg : config) (env : boot_env) :
  led_gpio_ready env = true ->
  0 <= led_gpio_configure env ->
  switch_gpio_ready env = true ->
  0 <= switch_gpio_configure env ->
  switch_gpio_get env = 0 ->
  let m' := boot cfg env in
  trace m' = [ALedConfigure; AState STATE_SHUTTING_DOWN; ALed false;
              APoweroff] /\
  states_of (trace m') = [STATE_SHUTTING_DOWN] /\
  ~ In true (leds_of (trace m')) /\
  led_level m' = false /\
  state m' = STATE_SHUTTING_DOWN /\
  poweroffs m' = 1%nat.
Proof.
  intros Hl Hlc Hs Hsc Hp. unfold boot, travel_switch_init.
  rewrite Hl, Hs, Hp. cbn.
  destruct (led_gpio_configure env <? 0) eqn:E1; [lia|].
  destruct (switch_gpio_configure env <? 0) eqn:E2; [lia|].
  cbn. repeat split; try reflexivity.
  intros [H | []]. discriminate.
Qed.

Lemma spurious_wake_powers_off_witness :
  states_of (trace (boot sample_cfg env_released)) = [STATE_SHUTTING_DOWN] /\
  poweroffs (boot sample_cfg env_released) = 1%nat.
Proof.
  split;
    apply (spurious_wake_powers_off sample_cfg env_released);
    cbn; first [reflexivity | lia].
Defined.

(** ** C9: the switch line cannot be read at boot *)

(** C9, as worded, at a boot where neither line is ready: the switch
    line is not ready, yet initialisation stops at the LED check and
    returns [-ENODEV] instead of reporting success. *)
Lemma switch_failure_success_counterexample :
  ~ (switch_gpio_ready env_nothing_ready = false \/
     switch_gpio_configure env_nothing_ready < 0 \/
     switch_gpio_get env_nothing_ready < 0 ->
     state (boot sample_cfg env_nothing_ready) = STATE_IDLE /\
     poweroffs (boot sample_cfg env_nothing_ready) = 0%nat /\
     fst (travel_switch_init sample_cfg env_nothing_ready boot_sys) = 0).
Proof.
  intros H. destruct H as [_ [_ H]]; [left; reflexivity|].
  vm_compute in H. discriminate.
Qed.

(** C9, amended.  If the switch line is not ready, cannot be configured
    or cannot be read, the machine is in [STATE_IDLE] after boot and
    [sys_poweroff] has not been called; and when the LED line was ready
    and configured, initialisation stores [STATE_IDLE] and returns 0.
    If the LED line is not ready initialisation returns [-ENODEV], and
    if it cannot be configured initialisation returns the error of the
    configure call; in both cases, whatever the switch line would
    answer, the machine is left untouched. *)
Theorem switch_failure_fails_open (cfg : config) (env : boot_env) :
  (switch_gpio_ready env = false \/
   switch_gpio_configure env < 0 \/
   switch_gpio_get env < 0 ->
   state (boot cfg env) = STATE_IDLE /\
   poweroffs (boot cfg env) = 0%nat /\
   (led_gpio_ready env = true -> 0 <= led_gpio_configure env ->
    fst (travel_switch_init cfg env boot_sys) = 0 /\
    trace (boot cfg env) = [ALedConfigure; AState STATE_IDLE]))
  /\
  (led_gpio_ready env = false ->
   travel_switch_init cfg env boot_sys = (- ENODEV, boot_sys))
  /\
  (led_gpio_ready env = true -> led_gpio_configure env < 0 ->
   travel_switch_init cfg env boot_sys = (led_gpio_configure env, boot_sys)).
Proof.
  split; [|split].
  - intros H. unfold boot, travel_switch_init.
    destruct (led_gpio_ready env); cbn;
      [|repeat split; intros; discriminate].
    destruct (led_gpio_configure env <? 0) eqn:E1; cbn.
    { apply Z.ltb_lt in E1. repeat split; intros; lia. }
    destruct (switch_gpio_ready env); cbn; [|repeat split].
    destruct (switch_gpio_configure env <? 0) eqn:E2; cbn; [repeat split|].
    destruct (switch_gpio_get env <? 0) eqn:E3; cbn; [repeat split|].
    apply Z.ltb_ge in E2, E3.
    destruct H as [H | [H | H]]; [discriminate | lia | lia].
  - intros Hl. unfold travel_switch_init. rewrite Hl. reflexivity.
  - intros Hl Hc. unfold travel_switch_init. rewrite Hl. cbn.
    apply Z.ltb_lt in Hc. rewrite Hc. reflexivity.
Qed.

Lemma switch_failure_fails_open_witness :
  (state (boot sample_cfg env_switch_not_ready) = STATE_IDLE /\
   poweroffs (boot sample_cfg env_switch_not_ready) = 0%nat /\
   fst (travel_switch_init sample_cfg env_switch_not_ready boot_sys) = 0) /\
  travel_switch_init sample_cfg env_nothing_ready boot_sys
  = (- ENODEV, boot_sys) /\
  travel_switch_init sample_cfg (mkBootEnv true (-5) false 0 0) boot_sys
  = (-5, boot_sys).
Proof.
  split; [|split].
  - destruct (switch_failure_fails_open sample_cfg env_switch_not_ready)
      as [H _].
    destruct H as [H1 [H2 H3]]; [left; reflexivity|].
    destruct H3 as [H3 _]; [reflexivity | cbn; lia |].
    exact (conj H1 (conj H2 H3)).
  - apply (switch_failure_fails_open sample_cfg env_nothing_ready).
    reflexivity.
  - apply (switch_failure_fails_open sample_cfg
             (mkBootEnv true (-5) false 0 0));
      [reflexivity | cbn; lia].
Defined.

(** ** C10: the held flag and the state tag *)

Lemma handle_held_consistent cfg e m :
  held_consistent m -> held_consistent (handle cfg e m).
Proof.
  unfold held_consistent. open_sys m.
  destruct e, st; run_cmds; auto.
Qed.

Lemma deliver_held_consistent cfg e m :
  held_consistent m -> held_consistent (deliver cfg e m).
Proof.
  unfold held_consistent, deliver. open_sys m.
  destruct e, st; run_cmds; auto.
Qed.

Lemma boot_held_consistent cfg env : held_consistent (boot cfg env).
Proof.
  unfold held_consistent, boot, travel_switch_init, boot_sys.
  break_match; run_cmds; auto.
Qed.

(** C10.  In every state reachable from boot by delivered events, the
    held flag is true in [STATE_HOLD_PENDING] and
    [STATE_WAKEUP_HOLD_PENDING] and false in [STATE_IDLE] and
    [STATE_LED_COOLDOWN]; and each handler, run in any state where this
    holds, re-establishes it. *)
Theorem held_flag_matches_state (cfg : config) :
  (forall m, reachable cfg m ->
     (state m = STATE_HOLD_PENDING \/ state m = STATE_WAKEUP_HOLD_PENDING ->
      switch_pressed m = true) /\
     (state m = STATE_IDLE \/ state m = STATE_LED_COOLDOWN ->
      switch_pressed m = false))
  /\
  (forall e m, held_consistent m -> held_consistent (handle cfg e m)).
Proof.
  split; [|intros; now apply handle_held_consistent].
  intros m Hr.
  assert (Hc : held_consistent m).
  { induction Hr; [apply boot_held_consistent|].
    now apply deliver_held_consistent. }
  unfold held_consistent in Hc.
  split; intros [H | H]; rewrite H in Hc; exact Hc.
Qed.

Lemma held_flag_matches_state_witness :
  switch_pressed
    (run sample_cfg [Press] (boot sample_cfg env_switch_not_ready)) = true /\
  switch_pressed
    (run sample_cfg [Press; Release] (boot sample_cfg env_switch_not_ready))
  = false.
Proof.
  destruct (held_flag_matches_state sample_cfg) as [H _]. split.
  - apply H; [|left; vm_compute; reflexivity].
    apply run_reachable, reach_boot.
  - apply H; [|right; vm_compute; reflexivity].
    apply run_reachable, reach_boot.
Defined.

(** ** C5: the LED-on step and the end of the sequence *)

(** C5, as worded, at [sample_last_blink] (blink sequence, LED lit, one
    cycle left, switch released): the decrement reaches zero, so the
    step should complete the sequence, leave the step timer alone and
    take the terminal action.  The handler instead re-arms the step
    timer and stays in the blink sequence without powering off. *)
Lemma last_off_step_counterexample :
  state sample_last_blink = STATE_BLINK_SEQUENCE /\
  blink_led_is_on sample_last_blink = true /\
  blink_remaining sample_last_blink = 1 /\
  switch_pressed sample_last_blink = false /\
  let m' := deliver sample_cfg BlinkStep sample_last_blink in
  blink_remaining m' = 0 /\
  ~ (~ In blink_step_work (schedules_of (since sample_last_blink m')) /\
     (poweroffs m' = S (poweroffs sample_last_blink) \/
      soft_off_queued m' = true)) /\
  schedules_of (since sample_last_blink m') = [blink_step_work] /\
  blink_step m' = Some 200 /\
  poweroffs m' = 0%nat /\
  soft_off_queued m' = false /\
  state m' = STATE_BLINK_SEQUENCE.
Proof.
  repeat split; try reflexivity.
  intros [H _]. apply H. vm_compute. left. reflexivity.
Qed.

(** C5, amended.  In the blink sequence with the LED phase on and a
    non-zero count, the step handler writes the LED off, clears the
    phase, decrements the count and asks for the step timer again,
    whatever the new count is; it does not call [sys_poweroff] and stays
    in the blink sequence.  The end of the sequence is the business of a
    step that finds the count at zero: it writes the LED off, does not
    ask for the timer and, if the held flag is false, runs
    [enter_soft_off] itself, without submitting [soft_off_work]; if the
    flag is true it stays in the blink sequence. *)
Theorem off_step_and_completion (cfg : config) (m : sys) :
  state m = STATE_BLINK_SEQUENCE ->
  (blink_led_is_on m = true ->
   0 < blink_remaining m <= UINT32_MAX ->
   let m' := blink_step_handler cfg m in
   state m' = STATE_BLINK_SEQUENCE /\
   led_level m' = false /\
   blink_led_is_on m' = false /\
   blink_remaining m' = blink_remaining m - 1 /\
   poweroffs m' = poweroffs m /\
   (blink_step m = None -> blink_step m' = Some (blink_interval_ms cfg / 2)) /\
   trace m' = trace m ++ [ALed false;
                          ASchedule blink_step_work
                                    (blink_interval_ms cfg / 2)])
  /\
  (blink_remaining m = 0 ->
   let m' := blink_step_handler cfg m in
   led_level m' = false /\
   blink_step m' = blink_step m /\
   soft_off_queued m' = soft_off_queued m /\
   if switch_pressed m
   then state m' = STATE_BLINK_SEQUENCE /\
        poweroffs m' = poweroffs m /\
        trace m' = trace m ++ [ALed false]
   else state m' = STATE_SHUTTING_DOWN /\
        poweroffs m' = S (poweroffs m) /\
        trace m' = trace m ++ [ALed false; AState STATE_SHUTTING_DOWN;
                               ALed false; APoweroff]).
Proof.
  intros Hst. open_sys m. subst st. split.
  - intros -> Hr. unfold blink_step_handler. cbn.
    destruct (rem =? 0) eqn:E; [apply Z.eqb_eq in E; lia|].
    assert (Hw : wrap32 (rem - 1) = rem - 1).
    { unfold wrap32. apply Z.mod_small. unfold UINT32_MAX in *. lia. }
    unfold_cmds. cbn. rewrite Hw.
    destruct bs; cbn; repeat rewrite app_assoc_cons;
      repeat split; try reflexivity; discriminate.
  - intros ->. unfold blink_step_handler. cbn.
    destruct held; unfold_cmds; cbn; repeat rewrite app_assoc_cons;
      repeat split; reflexivity.
Qed.

Lemma off_step_and_completion_witness :
  (let m' := blink_step_handler sample_cfg sample_last_blink in
   state m' = STATE_BLINK_SEQUENCE /\ blink_remaining m' = 0 /\
   poweroffs m' = 0%nat) /\
  state (blink_step_handler sample_cfg
           (blink_step_handler sample_cfg sample_last_blink))
    = STATE_SHUTTING_DOWN.
Proof.
  split.
  - destruct (off_step_and_completion sample_cfg sample_last_blink)
      as [H _]; [reflexivity|].
    destruct H as [H1 [_ [_ [H2 [H3 _]]]]];
      [reflexivity | vm_compute; split; [reflexivity | discriminate] |].
    exact (conj H1 (conj H2 H3)).
  - destruct (off_step_and_completion sample_cfg
                (blink_step_handler sample_cfg sample_last_blink))
      as [_ H]; [reflexivity|].
    destruct H as [_ [_ [_ H]]]; [reflexivity|].
    exact (proj1 H).
Defined.

(** ** Runs *)

Lemma run_app cfg evs1 evs2 m :
  run cfg (evs1 ++ evs2) m = run cfg evs2 (run cfg evs1 m).
Proof. unfold run. apply fold_left_app. Qed.

Lemma deliver_shutting_down cfg e m :
  state m = STATE_SHUTTING_DOWN ->
  state (deliver cfg e m) = STATE_SHUTTING_DOWN.
Proof.
  intros Hst. unfold deliver. open_sys m. subst st.
  destruct e; run_cmds; reflexivity.
Qed.

Lemma since_app m0 m suf : trace m = trace m0 ++ suf -> since m0 m = suf.
Proof.
  intros H. unfold since. rewrite H.
  rewrite skipn_app, skipn_all, Nat.sub_diag. reflexivity.
Qed.

(** ** The blink sequence, step by step *)

Lemma start_blink_progress cfg m0 :
  config_ok cfg -> hold_armed m0 ->
  blink_progress cfg m0 (deliver cfg HoldTimer m0).
Proof.
  intros (_ & _ & Hb & _) (Hst & Hht & Hbs & Hsoq & Hpo).
  unfold uint32 in Hb. open_sys m0. subst bs soq po.
  unfold deliver. cbn.
  destruct ht as [d|]; [|congruence].
  exists [AState STATE_BLINK_SEQUENCE; ALed false;
          ASchedule blink_step_work (blink_interval_ms cfg / 2)].
  destruct Hst as [-> | ->]; unfold_cmds; cbn;
    (split; [list_eq|]); left; unfold blink_inv; cbn;
    rewrite Z.sub_diag; repeat split; try reflexivity; try lia;
    discriminate.
Qed.

Lemma deliver_blink_progress cfg m0 m e :
  config_ok cfg ->
  blink_progress cfg m0 m -> blink_progress cfg m0 (deliver cfg e m).
Proof.
  intros (_ & _ & Hb & _) (suf & Htr & [[Hinv Hscan] | (Hst & Hscan)]).
  2:{ open_sys m. subst st tr. unfold deliver, blink_progress. cbn.
      destruct e; run_cmds;
        try (exists suf; split; [reflexivity|]; right; now split).
      exists (suf ++ [AState STATE_SHUTTING_DOWN; ALed false; APoweroff]).
      split; [list_eq|]. right. split; [reflexivity|]. now scan_step Hscan. }
  unfold uint32, UINT32_MAX in Hb.
  destruct Hinv as (Hst & Hpo & Hr & Hlit & Hsoq & Hbs).
  open_sys m. subst st po tr. unfold deliver, blink_progress. cbn.
  destruct e.
  - (* press *)
    exists suf. unfold_cmds. cbn. split; [reflexivity|]. left.
    split; [solve_inv | exact Hscan].
  - (* release *)
    unfold_cmds. cbn. destruct (rem =? 0) eqn:E; cbn.
    + apply Z.eqb_eq in E. exists (suf ++ [ASubmit]). split; [list_eq|].
      left. split; [solve_inv|]. now scan_step Hscan.
    + exists suf. split; [reflexivity|]. left.
      split; [solve_inv | exact Hscan].
  - (* hold timer *)
    destruct ht; unfold_cmds; cbn; exists suf; (split; [reflexivity|]);
      left; (split; [solve_inv | exact Hscan]).
  - (* cooldown timer *)
    destruct lt; unfold_cmds; cbn; exists suf; (split; [reflexivity|]);
      left; (split; [solve_inv | exact Hscan]).
  - (* blink step *)
    destruct bs as [d|]; cbn.
    2:{ exists suf. split; [reflexivity|]. left.
        split; [solve_inv | exact Hscan]. }
    unfold blink_step_handler. cbn.
    destruct (rem =? 0) eqn:E; cbn.
    + apply Z.eqb_eq in E. subst rem.
      assert (lit = false) as ->.
      { destruct lit; [|reflexivity]. specialize (Hlit eq_refl). lia. }
      rewrite Z.sub_0_r in Hscan.
      destruct held; unfold_cmds; cbn.
      * exists (suf ++ [ALed false]). split; [list_eq|]. left.
        split; [solve_inv|]. rewrite Z.sub_0_r. now scan_step Hscan.
      * exists (suf ++ [ALed false; AState STATE_SHUTTING_DOWN; ALed false;
                        APoweroff]).
        split; [list_eq|]. right. repeat split. now scan_step Hscan.
    + apply Z.eqb_neq in E. destruct lit; unfold_cmds; cbn.
      * assert (Hw : wrap32 (rem - 1) = rem - 1).
        { unfold wrap32, UINT32_MAX. apply Z.mod_small. lia. }
        rewrite Hw.
        exists (suf ++ [ALed false;
                        ASchedule blink_step_work (blink_interval_ms cfg / 2)]).
        split; [list_eq|]. left.
        split; [solve_inv|]. scan_step Hscan. f_equal. lia.
      * exists (suf ++ [ALed true;
                        ASchedule blink_step_work (blink_interval_ms cfg / 2)]).
        split; [list_eq|]. left.
        split; [solve_inv|]. now scan_step Hscan.
  - (* deferred soft-off *)
    destruct soq; cbn.
    + specialize (Hsoq eq_refl). subst rem.
      assert (lit = false) as ->.
      { destruct lit; [|reflexivity]. specialize (Hlit eq_refl). lia. }
      rewrite Z.sub_0_r in Hscan. unfold_cmds. cbn.
      exists (suf ++ [AState STATE_SHUTTING_DOWN; ALed false; APoweroff]).
      split; [list_eq|]. right. repeat split. now scan_step Hscan.
    + exists suf. split; [reflexivity|]. left.
      split; [solve_inv | exact Hscan].
Qed.

Lemma run_blink_progress cfg m0 evs : forall m,
  config_ok cfg ->
  blink_progress cfg m0 m -> blink_progress cfg m0 (run cfg evs m).
Proof.
  induction evs as [|e evs IH]; intros m Hc Hp; [exact Hp|].
  cbn. apply IH; [exact Hc|]. now apply deliver_blink_progress.
Qed.

Lemma blink_progress_cycles cfg m0 m :
  config_ok cfg -> blink_progress cfg m0 m ->
  (on_off_cycles (since m0 m) <= Z.to_nat (blink_count cfg))%nat /\
  (blink_finished m ->
   on_off_cycles (since m0 m) = Z.to_nat (blink_count cfg)).
Proof.
  intros (_ & _ & Hb & _) (suf & Htr & H). unfold uint32 in Hb.
  rewrite (since_app _ _ _ Htr). unfold on_off_cycles, blink_finished.
  destruct H as [[Hinv Hscan] | (Hst & Hscan)]; rewrite Hscan; cbn.
  - destruct Hinv as (Hst & Hpo & Hr & Hlit & Hsoq & Hbs). split; [lia|].
    intros [Hs | [_ Hn]]; [congruence|].
    destruct (Hbs Hn) as [-> _]. now rewrite Z.sub_0_r.
  - split; [lia | reflexivity].
Qed.

(** One firing of the step timer in a running sequence. *)
Lemma blink_step_fires cfg m :
  blinking m ->
  let m' := deliver cfg BlinkStep m in
  ((1 < steps_left m)%nat ->
     blinking m' /\
     steps_left m' = (steps_left m - 1)%nat /\
     switch_pressed m' = switch_pressed m /\
     soft_off_queued m' = soft_off_queued m)
  /\
  (steps_left m = 1%nat ->
     if switch_pressed m
     then state m' = STATE_BLINK_SEQUENCE /\ poweroffs m' = 0%nat /\
          blink_step m' = None /\ blink_remaining m' = 0 /\
          switch_pressed m' = true /\
          soft_off_queued m' = soft_off_queued m
     else state m' = STATE_SHUTTING_DOWN /\ poweroffs m' = 1%nat).
Proof.
  intros (Hst & Hpo & Hbs & Hr & Hlit). unfold blinking, steps_left, deliver.
  open_sys m. subst st po. cbn.
  destruct bs as [d|]; [clear Hbs | congruence].
  unfold blink_step_handler. cbn.
  destruct (rem =? 0) eqn:E.
  - apply Z.eqb_eq in E. subst rem.
    assert (lit = false) as ->.
    { destruct lit; [|reflexivity]. specialize (Hlit eq_refl). lia. }
    cbn. split; [lia|]. intros _.
    destruct held; unfold_cmds; cbn; repeat split; reflexivity.
  - apply Z.eqb_neq in E. unfold UINT32_MAX in *.
    destruct lit; unfold_cmds; cbn.
    + assert (Hw : wrap32 (rem - 1) = rem - 1).
      { unfold wrap32, UINT32_MAX. apply Z.mod_small. lia. }
      rewrite Hw. split; [intros _ | intros; lia].
      repeat split; try discriminate; try lia.
    + split; [intros _ | intros; lia].
      repeat split; try discriminate; try lia.
Qed.

Lemma blink_steps_run cfg k : forall m,
  blinking m -> (k < steps_left m)%nat ->
  let m' := run cfg (repeat BlinkStep k) m in
  blinking m' /\
  steps_left m' = (steps_left m - k)%nat /\
  switch_pressed m' = switch_pressed m /\
  soft_off_queued m' = soft_off_queued m.
Proof.
  induction k as [|k IH]; intros m Hb Hk.
  - cbn. split; [exact Hb|]. repeat split. lia.
  - change (run cfg (repeat BlinkStep (S k)) m)
      with (run cfg (repeat BlinkStep k) (deliver cfg BlinkStep m)).
    destruct (blink_step_fires cfg m Hb) as [H _].
    destruct H as (Hb' & Hs & Hp & Hq); [lia|].
    destruct (IH (deliver cfg BlinkStep m) Hb') as (A & B & C & D); [lia|].
    cbv zeta. split; [exact A|].
    split; [rewrite B, Hs; lia|]. split; congruence.
Qed.

Lemma blink_inv_steps_left cfg m : blink_inv cfg m -> (1 <= steps_left m)%nat.
Proof.
  intros (_ & _ & Hr & Hlit & _). unfold steps_left.
  destruct (blink_led_is_on m); [|lia]. specialize (Hlit eq_refl). lia.
Qed.

Lemma deliver_toward_finish cfg e m :
  config_ok cfg -> blink_inv cfg m ->
  let m' := deliver cfg e m in
  (blink_finished m -> blink_finished m') /\
  (blink_finished m' \/
   steps_left m' =
   (steps_left m - (if event_eq_dec e BlinkStep then 1 else 0))%nat).
Proof.
  intros (_ & _ & Hb & _) (Hst & Hpo & Hr & Hlit & Hsoq & Hbs).
  unfold uint32, UINT32_MAX in Hb.
  unfold blink_finished, steps_left, deliver.
  open_sys m. subst st po. cbn.
  destruct e; cbn.
  - unfold_cmds. cbn. split; [auto|]. right. lia.
  - unfold_cmds. cbn. destruct (rem =? 0); cbn; (split; [auto|]); right; lia.
  - destruct ht; unfold_cmds; cbn; (split; [auto|]); right; lia.
  - destruct lt; unfold_cmds; cbn; (split; [auto|]); right; lia.
  - destruct bs as [d|]; cbn.
    2:{ split; auto. }
    split; [intros [H | [_ H]]; discriminate|].
    unfold blink_step_handler. cbn.
    destruct (rem =? 0) eqn:E; cbn.
    + left. destruct held; unfold_cmds; cbn; auto.
    + apply Z.eqb_neq in E. destruct lit; unfold_cmds; cbn; right.
      * assert (Hw : wrap32 (rem - 1) = rem - 1).
        { unfold wrap32, UINT32_MAX. apply Z.mod_small. lia. }
        rewrite Hw. lia.
      * lia.
  - destruct soq; unfold_cmds; cbn; [split; auto|].
    split; [auto|]. right. lia.
Qed.

Lemma run_blink_finishes cfg m0 evs : forall m,
  config_ok cfg -> blink_progress cfg m0 m ->
  blink_finished m \/
  (steps_left m <= count_occ event_eq_dec evs BlinkStep)%nat ->
  blink_finished (run cfg evs m).
Proof.
  induction evs as [|e evs IH]; intros m Hc Hp Hm.
  - cbn [run fold_left count_occ] in *.
    destruct Hm as [Hm | Hm]; [exact Hm|].
    destruct Hp as (suf & _ & [[Hinv _] | (Hst & _)]).
    + pose proof (blink_inv_steps_left cfg m Hinv). lia.
    + left. exact Hst.
  - change (run cfg (e :: evs) m) with (run cfg evs (deliver cfg e m)).
    apply IH; [exact Hc | now apply deliver_blink_progress |].
    destruct Hp as (suf & _ & [[Hinv _] | (Hst & _)]).
    + destruct (deliver_toward_finish cfg e m Hc Hinv) as [Hstab Hstep].
      destruct Hm as [Hm | Hm]; [left; auto|].
      destruct Hstep as [Hf | Hs]; [left; exact Hf|].
      right. rewrite Hs. cbn [count_occ] in Hm.
      destruct (event_eq_dec e BlinkStep) as [-> | Hne].
      * destruct (event_eq_dec BlinkStep BlinkStep); [lia | congruence].
      * destruct (event_eq_dec e BlinkStep); [congruence | lia].
    + left. left. now apply deliver_shutting_down.
Qed.

Lemma blink_entry_state cfg m0 :
  hold_armed m0 ->
  let m1 := deliver cfg HoldTimer m0 in
  state m1 = STATE_BLINK_SEQUENCE /\
  poweroffs m1 = 0%nat /\
  blink_step m1 = Some (blink_interval_ms cfg / 2) /\
  blink_remaining m1 = blink_count cfg /\
  blink_led_is_on m1 = false /\
  switch_pressed m1 = switch_pressed m0 /\
  soft_off_queued m1 = false.
Proof.
  intros (Hst & Hht & Hbs & Hsoq & Hpo).
  unfold deliver. open_sys m0. subst bs soq po. cbn.
  destruct ht as [d|]; [|congruence].
  destruct Hst as [-> | ->]; unfold_cmds; cbn; repeat split; reflexivity.
Qed.

(** ** Pending states reached from boot *)

Lemma deliver_pending_inv cfg e m :
  pending_inv m -> pending_inv (deliver cfg e m).
Proof.
  unfold pending_inv, deliver. open_sys m.
  destruct e, st; run_cmds;
    intuition (try reflexivity; try assumption; try discriminate).
Qed.

Lemma boot_pending_inv cfg env : pending_inv (boot cfg env).
Proof.
  unfold pending_inv, boot, travel_switch_init, boot_sys.
  break_match; run_cmds; repeat split; discriminate.
Qed.

Lemma reachable_pending_inv cfg m : reachable cfg m -> pending_inv m.
Proof.
  induction 1; [apply boot_pending_inv | now apply deliver_pending_inv].
Qed.

Lemma reachable_held_consistent cfg m : reachable cfg m -> held_consistent m.
Proof.
  induction 1; [apply boot_held_consistent|].
  now apply deliver_held_consistent.
Qed.

Lemma reachable_hold_armed cfg m :
  reachable cfg m ->
  state m = STATE_HOLD_PENDING \/ state m = STATE_WAKEUP_HOLD_PENDING ->
  hold_armed m /\ switch_pressed m = true.
Proof.
  intros Hr Hst.
  pose proof (reachable_pending_inv cfg m Hr) as Hp.
  pose proof (reachable_held_consistent cfg m Hr) as Hc.
  unfold pending_inv, held_consistent, hold_armed in *.
  destruct Hst as [Hst | Hst]; rewrite Hst in Hp, Hc; rewrite Hst; tauto.
Qed.

(** ** C4: the number of blinks *)

Lemma blink_cycles_from_armed cfg m0 evs :
  config_ok cfg ->
  hold_armed m0 ->
  let m' := run cfg evs (deliver cfg HoldTimer m0) in
  (on_off_cycles (since m0 m') <= Z.to_nat (blink_count cfg))%nat /\
  (blink_finished m' ->
   on_off_cycles (since m0 m') = Z.to_nat (blink_count cfg)) /\
  ((2 * Z.to_nat (blink_count cfg) + 1
    <= count_occ event_eq_dec evs BlinkStep)%nat ->
   blink_finished m').
Proof.
  intros Hc Ha m'.
  assert (Hp0 : blink_progress cfg m0 (deliver cfg HoldTimer m0))
    by now apply start_blink_progress.
  assert (Hp : blink_progress cfg m0 m') by now apply run_blink_progress.
  destruct (blink_progress_cycles cfg m0 m' Hc Hp) as [Hle Heq].
  split; [exact Hle|]. split; [exact Heq|].
  intros Hn. apply (run_blink_finishes cfg m0); [exact Hc | exact Hp0 |].
  right.
  destruct (blink_entry_state cfg m0 Ha) as (_ & _ & _ & Hr & Hl & _).
  unfold steps_left. rewrite Hr, Hl. exact Hn.
Qed.

(** C4.  Take any state reached from boot in which a hold is pending,
    let the hold timer fire, and then deliver any events whatever,
    presses and releases included.  The LED never completes more than
    [blink_count] on/off cycles; once the sequence is over (terminal
    action taken, or waiting for the release with no step timer left)
    it has completed exactly [blink_count]; and the sequence is over as
    soon as the step timer has been given [2 * blink_count + 1]
    occasions to fire. *)
Theorem blink_count_cycles (cfg : config) (m0 : sys) (evs : list event) :
  config_ok cfg ->
  reachable cfg m0 ->
  state m0 = STATE_HOLD_PENDING \/ state m0 = STATE_WAKEUP_HOLD_PENDING ->
  let m' := run cfg evs (deliver cfg HoldTimer m0) in
  (on_off_cycles (since m0 m') <= Z.to_nat (blink_count cfg))%nat /\
  (blink_finished m' ->
   on_off_cycles (since m0 m') = Z.to_nat (blink_count cfg)) /\
  ((2 * Z.to_nat (blink_count cfg) + 1
    <= count_occ event_eq_dec evs BlinkStep)%nat ->
   blink_finished m').
Proof.
  intros Hc Hr Hst.
  apply blink_cycles_from_armed; [exact Hc|].
  now apply reachable_hold_armed with (cfg := cfg).
Qed.

Lemma blink_count_cycles_witness :
  let m0 := run sample_cfg [Press] (boot sample_cfg env_switch_not_ready) in
  let m' := run sample_cfg
                [BlinkStep; Release; BlinkStep; Press; BlinkStep; BlinkStep;
                 BlinkStep; Release; BlinkStep; BlinkStep]
                (deliver sample_cfg HoldTimer m0) in
  on_off_cycles (since m0 m') = 3%nat /\ blink_finished m'.
Proof.
  destruct (blink_count_cycles sample_cfg
              (run sample_cfg [Press] (boot sample_cfg env_switch_not_ready))
              [BlinkStep; Release; BlinkStep; Press; BlinkStep; BlinkStep;
               BlinkStep; Release; BlinkStep; BlinkStep])
    as [_ [Heq Hfin]].
  - unfold config_ok, uint32, UINT32_MAX. cbn. lia.
  - apply run_reachable, reach_boot.
  - left. vm_compute. reflexivity.
  - assert (Hn : (2 * Z.to_nat (blink_count sample_cfg) + 1
                  <= count_occ event_eq_dec
                       [BlinkStep; Release; BlinkStep; Press; BlinkStep;
                        BlinkStep; BlinkStep; Release; BlinkStep; BlinkStep]
                       BlinkStep)%nat) by (vm_compute; lia).
    split; [exact (Heq (Hfin Hn)) | exact (Hfin Hn)].
Defined.

(** ** C2: the two ways to the terminal action *)

Lemma release_while_blinking cfg m :
  blinking m ->
  let m' := deliver cfg Release m in
  blinking m' /\ steps_left m' = steps_left m /\ switch_pressed m' = false /\
  soft_off_queued m'
  = (if blink_remaining m =? 0 then true else soft_off_queued m).
Proof.
  intros (Hst & Hpo & Hbs & Hr & Hlit). unfold blinking, steps_left, deliver.
  open_sys m. subst st po. cbn. unfold_cmds. cbn.
  destruct (rem =? 0); cbn; repeat split; auto; lia.
Qed.

Lemma release_while_waiting cfg m :
  state m = STATE_BLINK_SEQUENCE -> poweroffs m = 0%nat ->
  blink_remaining m = 0 ->
  let m' := deliver cfg Release m in
  poweroffs m' = 0%nat /\ blink_step m' = blink_step m /\
  soft_off_queued m' = true.
Proof.
  intros Hst Hpo Hr. unfold deliver. open_sys m. subst st po rem.
  cbn. unfold_cmds. cbn. repeat split.
Qed.

Lemma blinks_left m :
  blinking m ->
  (blink_remaining m =? 0) = (steps_left m =? 1)%nat.
Proof.
  intros (_ & _ & _ & Hr & Hlit). unfold steps_left.
  destruct (blink_remaining m =? 0) eqn:E.
  - apply Z.eqb_eq in E. rewrite E in *.
    destruct (blink_led_is_on m); [specialize (Hlit eq_refl); lia|].
    reflexivity.
  - apply Z.eqb_neq in E. symmetry. apply Nat.eqb_neq.
    destruct (blink_led_is_on m); lia.
Qed.

(** The closing step with the switch released. *)
Lemma blink_step_closes cfg m :
  blinking m -> steps_left m = 1%nat -> switch_pressed m = false ->
  let m' := deliver cfg BlinkStep m in
  state m' = STATE_SHUTTING_DOWN /\ poweroffs m' = 1%nat /\
  soft_off_queued m' = soft_off_queued m.
Proof.
  intros Hb H1 Hp.
  pose proof (blinks_left m Hb) as Hz. rewrite H1, Nat.eqb_refl in Hz.
  destruct Hb as (Hst & Hpo & Hbs & Hr & Hlit). unfold deliver.
  open_sys m. subst st po held.
  destruct bs as [d|]; [|congruence].
  unfold blink_step_handler. cbn. rewrite Hz.
  unfold_cmds. cbn. repeat split.
Qed.

Lemma soft_off_runs cfg m :
  soft_off_queued m = true ->
  let m' := deliver cfg SoftOff m in
  state m' = STATE_SHUTTING_DOWN /\ poweroffs m' = S (poweroffs m) /\
  soft_off_queued m' = false.
Proof.
  intros Hq. unfold deliver. open_sys m. subst soq.
  unfold_cmds. cbn. repeat split.
Qed.

Lemma deliver_after_shutdown cfg e m :
  state m = STATE_SHUTTING_DOWN -> soft_off_queued m = false ->
  let m' := deliver cfg e m in
  state m' = STATE_SHUTTING_DOWN /\ soft_off_queued m' = false /\
  poweroffs m' = poweroffs m.
Proof.
  intros Hst Hq. unfold deliver. open_sys m. subst st soq.
  destruct e; run_cmds; repeat split.
Qed.

Lemma run_after_shutdown cfg evs : forall m,
  state m = STATE_SHUTTING_DOWN -> soft_off_queued m = false ->
  state (run cfg evs m) = STATE_SHUTTING_DOWN /\
  poweroffs (run cfg evs m) = poweroffs m.
Proof.
  induction evs as [|e evs IH]; intros m Hst Hq; [split; auto|].
  change (run cfg (e :: evs) m) with (run cfg evs (deliver cfg e m)).
  destruct (deliver_after_shutdown cfg e m Hst Hq) as (A & B & C).
  destruct (IH _ A B) as [D E]. split; [exact D | congruence].
Qed.

Lemma finish_after_release cfg rest : forall m,
  blinking m -> switch_pressed m = false -> soft_off_queued m = false ->
  Forall blink_or_soft_off rest ->
  (steps_left m <= count_occ event_eq_dec rest BlinkStep)%nat ->
  poweroffs (run cfg rest m) = 1%nat /\
  state (run cfg rest m) = STATE_SHUTTING_DOWN.
Proof.
  induction rest as [|e rest IH]; intros m Hb Hp Hq Hall Hn.
  - cbn [count_occ] in Hn. destruct Hb as (_ & _ & _ & Hr & Hlit).
    unfold steps_left in Hn.
    destruct (blink_led_is_on m); [specialize (Hlit eq_refl)|]; lia.
  - change (run cfg (e :: rest) m) with (run cfg rest (deliver cfg e m)).
    inversion Hall as [|? ? He Hall']; subst.
    cbn [count_occ] in Hn. destruct He as [-> | ->].
    + destruct (event_eq_dec BlinkStep BlinkStep); [|congruence].
      destruct (Nat.eq_dec (steps_left m) 1) as [H1 | H1].
      * destruct (blink_step_closes cfg m Hb H1 Hp) as (A & B & C).
        destruct (run_after_shutdown cfg rest _ A) as [D E];
          [congruence|].
        split; congruence.
      * assert (Hge : (1 <= steps_left m)%nat).
        { destruct Hb as (_ & _ & _ & Hr & Hlit). unfold steps_left.
          destruct (blink_led_is_on m); [specialize (Hlit eq_refl)|]; lia. }
        destruct (blink_step_fires cfg m Hb) as [Hmore _].
        destruct Hmore as (Hb' & Hs & Hp' & Hq'); [lia|].
        apply IH; [exact Hb' | congruence | congruence | exact Hall' | lia].
    + destruct (event_eq_dec SoftOff BlinkStep); [discriminate|].
      assert (Hd : deliver cfg SoftOff m = m).
      { unfold deliver. rewrite Hq. reflexivity. }
      rewrite Hd. apply IH; assumption.
Qed.

Lemma soft_off_after_wait cfg rest : forall m,
  poweroffs m = 0%nat -> blink_step m = None -> soft_off_queued m = true ->
  Forall blink_or_soft_off rest -> In SoftOff rest ->
  poweroffs (run cfg rest m) = 1%nat /\
  state (run cfg rest m) = STATE_SHUTTING_DOWN.
Proof.
  induction rest as [|e rest IH]; intros m Hpo Hbs Hq Hall Hin; [destruct Hin|].
  change (run cfg (e :: rest) m) with (run cfg rest (deliver cfg e m)).
  inversion Hall as [|? ? He Hall']; subst.
  destruct He as [-> | ->].
  - assert (Hd : deliver cfg BlinkStep m = m).
    { unfold deliver. rewrite Hbs. reflexivity. }
    rewrite Hd. apply IH; try assumption.
    destruct Hin as [Hin | Hin]; [discriminate | exact Hin].
  - destruct (soft_off_runs cfg m Hq) as (A & B & C).
    destruct (run_after_shutdown cfg rest _ A C) as [D E].
    split; congruence.
Qed.

Lemma blink_entry_blinking cfg m0 :
  config_ok cfg -> hold_armed m0 ->
  let m1 := deliver cfg HoldTimer m0 in
  blinking m1 /\
  steps_left m1 = (2 * Z.to_nat (blink_count cfg) + 1)%nat /\
  switch_pressed m1 = switch_pressed m0 /\
  soft_off_queued m1 = false.
Proof.
  intros (_ & _ & Hb & _) Ha. unfold uint32 in Hb.
  destruct (blink_entry_state cfg m0 Ha)
    as (Hs & Hpo & Hbs & Hr & Hl & Hp & Hq).
  cbv zeta. unfold blinking, steps_left. rewrite Hs, Hpo, Hbs, Hr, Hl.
  repeat split; auto; try lia; discriminate.
Qed.




(** * Further properties of the module *)

(** ** Work items and the state tag *)

Lemma deliver_timers_inv cfg e m :
  timers_inv cfg m -> timers_inv cfg (deliver cfg e m).
Proof.
  unfold timers_inv, deliver. open_sys m.
  destruct e, st; intros H; decompose [and] H; clear H; subst;
    run_cmds; solve_parts.
Qed.

Lemma boot_timers_inv cfg env : timers_inv cfg (boot cfg env).
Proof.
  unfold timers_inv, boot, travel_switch_init, boot_sys.
  break_match; run_cmds; solve_parts.
Qed.

Lemma reachable_timers_inv cfg m : reachable cfg m -> timers_inv cfg m.
Proof.
  induction 1; [apply boot_timers_inv | now apply deliver_timers_inv].
Qed.

(** In every state reached from boot, the hold timer is outstanding
    exactly in [STATE_HOLD_PENDING] and [STATE_WAKEUP_HOLD_PENDING] and
    the cooldown timer exactly in [STATE_LED_COOLDOWN]; the step timer
    is outstanding only in [STATE_BLINK_SEQUENCE] or, left over, in
    [STATE_SHUTTING_DOWN]; [soft_off_work] is queued only in those two
    states, and in the blink sequence only with no blinks left.  An
    outstanding timer always carries the configured delay. *)
Theorem timers_follow_state (cfg : config) (m : sys) :
  reachable cfg m ->
  (hold_timer m <> None <->
   state m = STATE_HOLD_PENDING \/ state m = STATE_WAKEUP_HOLD_PENDING) /\
  (led_timeout m <> None <-> state m = STATE_LED_COOLDOWN) /\
  (blink_step m <> None -> committed m) /\
  (soft_off_queued m = true ->
   (state m = STATE_BLINK_SEQUENCE /\ blink_remaining m = 0) \/
   state m = STATE_SHUTTING_DOWN) /\
  (forall d, hold_timer m = Some d -> d = hold_time_ms cfg) /\
  (forall d, led_timeout m = Some d -> d = led_timeout_ms cfg) /\
  (forall d, blink_step m = Some d -> d = blink_interval_ms cfg / 2).
Proof.
  intros Hr. apply reachable_timers_inv in Hr.
  unfold timers_inv in Hr. unfold committed. open_sys m.
  destruct st; decompose [and or] Hr; clear Hr; subst;
    repeat split; intros; try discriminate; try congruence; auto;
    try (match goal with H : _ \/ _ |- _ => destruct H; discriminate end).
Qed.

Lemma timers_follow_state_witness :
  let m := run sample_cfg [Press; Release]
               (boot sample_cfg env_switch_not_ready) in
  (led_timeout m <> None <-> state m = STATE_LED_COOLDOWN) /\
  (forall d, led_timeout m = Some d -> d = led_timeout_ms sample_cfg).
Proof.
  destruct (timers_follow_state sample_cfg
              (run sample_cfg [Press; Release]
                   (boot sample_cfg env_switch_not_ready)))
    as (_ & H2 & _ & _ & _ & H6 & _).
  - apply run_reachable, reach_boot.
  - exact (conj H2 H6).
Defined.

(** In every state reached from boot, [sys_poweroff] has been called at
    least once if the state is [STATE_SHUTTING_DOWN] and not at all
    otherwise; it is never called more than twice, and after a second
    call no [soft_off_work] is left queued. *)
Theorem shutting_down_iff_powered_off (cfg : config) (m : sys) :
  reachable cfg m ->
  (state m = STATE_SHUTTING_DOWN <-> (1 <= poweroffs m)%nat) /\
  (state m <> STATE_SHUTTING_DOWN <-> poweroffs m = 0%nat) /\
  (poweroffs m <= 2)%nat /\
  (poweroffs m = 2%nat -> soft_off_queued m = false).
Proof.
  intros Hr. apply reachable_timers_inv in Hr.
  unfold timers_inv in Hr. open_sys m.
  destruct st; decompose [and or] Hr; clear Hr; subst;
    repeat split; intros; try discriminate; try congruence; try lia.
Qed.

Lemma shutting_down_iff_powered_off_witness :
  state (run sample_cfg [Release] (boot sample_cfg env_held))
  = STATE_SHUTTING_DOWN.
Proof.
  apply (shutting_down_iff_powered_off sample_cfg).
  - apply run_reachable, reach_boot.
  - vm_compute. lia.
Defined.

(** ** The LED and the state tag *)

Lemma deliver_led_inv cfg e m : led_inv m -> led_inv (deliver cfg e m).
Proof.
  unfold led_inv, deliver. open_sys m.
  destruct e, st; intros H; split_hyps; subst;
    run_cmds; try solve [solve_parts];
    destruct lit; solve_parts.
Qed.

Lemma boot_led_inv cfg env : led_inv (boot cfg env).
Proof.
  unfold led_inv, boot, travel_switch_init, boot_sys.
  break_match; run_cmds; solve_parts.
Qed.

(** In every state reached from boot the LED line, as last written, is
    on in [STATE_HOLD_PENDING], [STATE_LED_COOLDOWN] and
    [STATE_WAKEUP_HOLD_PENDING], off in [STATE_SHUTTING_DOWN], and equal
    to the blink phase [blink_led_is_on] in [STATE_BLINK_SEQUENCE]. *)
Theorem led_follows_state (cfg : config) (m : sys) :
  reachable cfg m ->
  (state m = STATE_HOLD_PENDING \/ state m = STATE_LED_COOLDOWN \/
   state m = STATE_WAKEUP_HOLD_PENDING -> led_level m = true) /\
  (state m = STATE_SHUTTING_DOWN -> led_level m = false) /\
  (state m = STATE_BLINK_SEQUENCE -> led_level m = blink_led_is_on m).
Proof.
  intros Hr.
  assert (Hi : led_inv m).
  { induction Hr; [apply boot_led_inv | now apply deliver_led_inv]. }
  unfold led_inv in Hi.
  repeat split; intros Hst.
  - destruct Hst as [Hst | [Hst | Hst]]; rewrite Hst in Hi; exact Hi.
  - rewrite Hst in Hi. exact Hi.
  - rewrite Hst in Hi. apply Hi.
Qed.

Lemma led_follows_state_witness :
  let m := run sample_cfg [Press; HoldTimer; BlinkStep]
               (boot sample_cfg env_switch_not_ready) in
  led_level m = blink_led_is_on m.
Proof.
  apply (led_follows_state sample_cfg).
  - apply run_reachable, reach_boot.
  - vm_compute. reflexivity.
Defined.

(** ** The blink counter *)

Lemma deliver_counter_inv cfg e m :
  config_ok cfg -> counter_inv cfg m -> counter_inv cfg (deliver cfg e m).
Proof.
  intros (_ & _ & Hb & _). unfold uint32, UINT32_MAX in Hb.
  unfold counter_inv, deliver. open_sys m.
  destruct e, st; intros H; run_cmds; zeq; try lia;
    unfold wrap32, UINT32_MAX; rewrite Z.mod_small by lia; lia.
Qed.

Lemma boot_counter_inv cfg env : config_ok cfg -> counter_inv cfg (boot cfg env).
Proof.
  intros (_ & _ & Hb & _). unfold uint32 in Hb.
  unfold counter_inv, boot, travel_switch_init, boot_sys.
  break_match; run_cmds; lia.
Qed.

(** With a configuration in [uint32_t] range, [blink_remaining] stays
    between 0 and [blink_count] in every state reached from boot: the
    unsigned decrement of the step handler never wraps around. *)
Theorem blink_remaining_bounded (cfg : config) (m : sys) :
  config_ok cfg ->
  reachable cfg m ->
  0 <= blink_remaining m <= blink_count cfg.
Proof.
  intros Hc Hr. change (counter_inv cfg m).
  induction Hr; [now apply boot_counter_inv | now apply deliver_counter_inv].
Qed.

Lemma blink_remaining_bounded_witness :
  0 <= blink_remaining
         (run sample_cfg [Press; HoldTimer; BlinkStep; BlinkStep; BlinkStep]
              (boot sample_cfg env_switch_not_ready))
    <= 3.
Proof.
  apply (blink_remaining_bounded sample_cfg).
  - unfold config_ok, uint32, UINT32_MAX. cbn. lia.
  - apply run_reachable, reach_boot.
Defined.

(** ** Initialisation *)

(** What [travel_switch_init] returns.  With the LED line not ready it
    returns [-ENODEV]; with the LED line ready but not configurable it
    returns the error of the configure call; in both cases the machine
    is as it was.  With the LED line set up it returns 0 on every path
    that does not go through [enter_soft_off]: switch line not ready,
    not configurable, not readable, or read as held. *)
Theorem init_result (cfg : config) (env : boot_env) (m : sys) :
  (led_gpio_ready env = false ->
   travel_switch_init cfg env m = (- ENODEV, m)) /\
  (led_gpio_ready env = true -> led_gpio_configure env < 0 ->
   travel_switch_init cfg env m = (led_gpio_configure env, m)) /\
  (led_gpio_ready env = true -> 0 <= led_gpio_configure env ->
   switch_gpio_ready env = false \/ switch_gpio_configure env < 0 \/
   switch_gpio_get env <> 0 ->
   fst (travel_switch_init cfg env m) = 0 /\
   poweroffs (snd (travel_switch_init cfg env m)) = poweroffs m).
Proof.
  split; [|split].
  - intros Hl. unfold travel_switch_init. rewrite Hl. reflexivity.
  - intros Hl Hc. unfold travel_switch_init. rewrite Hl. cbn.
    apply Z.ltb_lt in Hc. rewrite Hc. reflexivity.
  - intros Hl Hc Hs. unfold travel_switch_init. rewrite Hl. cbn.
    destruct (led_gpio_configure env <? 0) eqn:E1;
      [apply Z.ltb_lt in E1; lia|].
    open_sys m.
    destruct (switch_gpio_ready env); cbn; [|split; reflexivity].
    destruct (switch_gpio_configure env <? 0) eqn:E2; cbn;
      [split; reflexivity|].
    destruct (switch_gpio_get env <? 0) eqn:E3; cbn; [split; reflexivity|].
    destruct (switch_gpio_get env =? 0) eqn:E4; cbn;
      [|destruct ht; split; reflexivity].
    apply Z.ltb_ge in E2. apply Z.eqb_eq in E4.
    destruct Hs as [Hs | [Hs | Hs]]; [discriminate | lia | lia].
Qed.

Lemma init_result_witness :
  travel_switch_init sample_cfg env_nothing_ready sample_cooldown
  = (- ENODEV, sample_cooldown) /\
  travel_switch_init sample_cfg (mkBootEnv true (-22) true 0 1) sample_cooldown
  = (-22, sample_cooldown) /\
  fst (travel_switch_init sample_cfg env_held boot_sys) = 0.
Proof.
  split; [|split].
  - apply (init_result sample_cfg env_nothing_ready sample_cooldown).
    reflexivity.
  - apply (init_result sample_cfg (mkBootEnv true (-22) true 0 1)
             sample_cooldown); [reflexivity | cbn; lia].
  - apply (init_result sample_cfg env_held boot_sys);
      [reflexivity | cbn; lia | right; right; cbn; lia].
Defined.

(** After boot the machine is in [STATE_SHUTTING_DOWN] exactly when all
    GPIO calls succeeded and the switch read 0, in
    [STATE_WAKEUP_HOLD_PENDING] exactly when they succeeded and the
    switch read a positive value, and in [STATE_IDLE] in every other
    case. *)
Theorem boot_outcome (cfg : config) (env : boot_env) :
  (state (boot cfg env) = STATE_SHUTTING_DOWN <->
   lines_ok env /\ switch_gpio_get env = 0) /\
  (state (boot cfg env) = STATE_WAKEUP_HOLD_PENDING <->
   lines_ok env /\ 0 < switch_gpio_get env) /\
  (state (boot cfg env) = STATE_IDLE \/
   state (boot cfg env) = STATE_WAKEUP_HOLD_PENDING \/
   state (boot cfg env) = STATE_SHUTTING_DOWN).
Proof.
  unfold boot, travel_switch_init, lines_ok, boot_sys.
  destruct (led_gpio_ready env); cbn;
    [|repeat split; intros; try discriminate; auto; intuition discriminate].
  destruct (led_gpio_configure env <? 0) eqn:E1; cbn.
  { apply Z.ltb_lt in E1.
    repeat split; intros; try discriminate; auto; intuition lia. }
  apply Z.ltb_ge in E1.
  destruct (switch_gpio_ready env); cbn;
    [|repeat split; intros; try discriminate; auto; intuition discriminate].
  destruct (switch_gpio_configure env <? 0) eqn:E2; cbn.
  { apply Z.ltb_lt in E2.
    repeat split; intros; try discriminate; auto; intuition lia. }
  apply Z.ltb_ge in E2.
  destruct (switch_gpio_get env <? 0) eqn:E3; cbn.
  { apply Z.ltb_lt in E3.
    repeat split; intros; try discriminate; auto; intuition lia. }
  apply Z.ltb_ge in E3.
  destruct (switch_gpio_get env =? 0) eqn:E4; cbn.
  - apply Z.eqb_eq in E4.
    repeat split; intros; try discriminate; auto; intuition lia.
  - apply Z.eqb_neq in E4.
    repeat split; intros; try discriminate; auto; intuition lia.
Qed.

Lemma boot_outcome_witness :
  state (boot sample_cfg env_released) = STATE_SHUTTING_DOWN /\
  (lines_ok env_held /\ 0 < switch_gpio_get env_held).
Proof.
  split.
  - apply (boot_outcome sample_cfg env_released).
    unfold lines_ok. cbn. repeat split; lia.
  - apply (boot_outcome sample_cfg env_held). vm_compute. reflexivity.
Defined.

(** When all GPIO calls succeed and the switch reads a positive value,
    initialisation sets the held flag, stores
    [STATE_WAKEUP_HOLD_PENDING], writes the LED on and arms the hold
    timer with [hold_time_ms], in that order, calls [sys_poweroff] not
    at all and returns 0. *)
Theorem boot_with_switch_held (cfg : config) (env : boot_env) :
  lines_ok env ->
  0 < switch_gpio_get env ->
  fst (travel_switch_init cfg env boot_sys) = 0 /\
  state (boot cfg env) = STATE_WAKEUP_HOLD_PENDING /\
  switch_pressed (boot cfg env) = true /\
  led_level (boot cfg env) = true /\
  hold_timer (boot cfg env) = Some (hold_time_ms cfg) /\
  poweroffs (boot cfg env) = 0%nat /\
  trace (boot cfg env) =
    [ALedConfigure; AState STATE_WAKEUP_HOLD_PENDING; ALed true;
     ASchedule hold_timer_work (hold_time_ms cfg)].
Proof.
  intros (Hl & Hlc & Hs & Hsc) Hp.
  unfold boot, travel_switch_init, boot_sys. rewrite Hl, Hs. cbn.
  destruct (led_gpio_configure env <? 0) eqn:E1; [lia|].
  destruct (switch_gpio_configure env <? 0) eqn:E2; [lia|].
  destruct (switch_gpio_get env <? 0) eqn:E3; [lia|].
  destruct (switch_gpio_get env =? 0) eqn:E4; [lia|].
  cbn. repeat split.
Qed.

Lemma boot_with_switch_held_witness :
  state (boot sample_cfg env_held) = STATE_WAKEUP_HOLD_PENDING /\
  hold_timer (boot sample_cfg env_held) = Some 2000.
Proof.
  assert (Hl : lines_ok env_held).
  { unfold lines_ok. cbn. repeat split; lia. }
  assert (Hp : 0 < switch_gpio_get env_held) by (cbn; lia).
  split; apply (boot_with_switch_held sample_cfg env_held Hl Hp).
Defined.

(** ** Input notifications *)

(** The input callback leaves the machine as it is for every event whose
    code is not [INPUT_KEY_POWER]; for a power-key event, whatever the
    state, the held flag afterwards says whether the event value was
    non-zero. *)
Theorem input_cb_tracks_power_key (cfg : config) (evt : input_event)
        (m : sys) :
  (code evt <> INPUT_KEY_POWER -> travel_switch_input_cb cfg evt m = m) /\
  (code evt = INPUT_KEY_POWER ->
   switch_pressed (travel_switch_input_cb cfg evt m)
   = negb (value evt =? 0)).
Proof.
  split.
  - apply input_cb_other_key.
  - intros Hc. unfold travel_switch_input_cb. rewrite Hc, Z.eqb_refl. cbn.
    open_sys m.
    destruct (value evt =? 0); cbn; destruct st; run_cmds; reflexivity.
Qed.

Lemma input_cb_tracks_power_key_witness :
  travel_switch_input_cb sample_cfg (mkInputEvent 30 1) sample_cooldown
  = sample_cooldown /\
  switch_pressed
    (travel_switch_input_cb sample_cfg (power_key 1) sample_cooldown) = true.
Proof.
  split.
  - apply (input_cb_tracks_power_key sample_cfg (mkInputEvent 30 1)).
    cbn. discriminate.
  - apply (input_cb_tracks_power_key sample_cfg (power_key 1)). reflexivity.
Defined.

(** A press in [STATE_HOLD_PENDING], [STATE_WAKEUP_HOLD_PENDING],
    [STATE_BLINK_SEQUENCE] or [STATE_SHUTTING_DOWN] only sets the held
    flag, and a release in [STATE_IDLE], [STATE_LED_COOLDOWN] or
    [STATE_SHUTTING_DOWN] only clears it: state, counters, LED, timers,
    deferred work and trace stay as they were. *)
Theorem ignored_notifications (cfg : config) (m : sys) :
  (state m = STATE_HOLD_PENDING \/ state m = STATE_WAKEUP_HOLD_PENDING \/
   state m = STATE_BLINK_SEQUENCE \/ state m = STATE_SHUTTING_DOWN ->
   on_press cfg m = set_switch_pressed true m) /\
  (state m = STATE_IDLE \/ state m = STATE_LED_COOLDOWN \/
   state m = STATE_SHUTTING_DOWN ->
   on_release cfg m = set_switch_pressed false m).
Proof.
  open_sys m. split.
  - intros [-> | [-> | [-> | ->]]]; reflexivity.
  - intros [-> | [-> | ->]]; reflexivity.
Qed.

Lemma ignored_notifications_witness :
  on_press sample_cfg sample_last_blink
  = set_switch_pressed true sample_last_blink /\
  on_release sample_cfg sample_cooldown
  = set_switch_pressed false sample_cooldown.
Proof.
  split.
  - apply (ignored_notifications sample_cfg sample_last_blink).
    right. right. left. reflexivity.
  - apply (ignored_notifications sample_cfg sample_cooldown).
    right. left. reflexivity.
Defined.

(** A repeated press notification changes nothing: pressing twice is
    the same as pressing once, in every state.  The same holds for a
    repeated release, except in a blink sequence with no blinks left,
    where each release submits [soft_off_work] again. *)
Theorem repeated_notifications (cfg : config) (m : sys) :
  on_press cfg (on_press cfg m) = on_press cfg m /\
  (~ (state m = STATE_BLINK_SEQUENCE /\ blink_remaining m = 0) ->
   on_release cfg (on_release cfg m) = on_release cfg m).
Proof.
  open_sys m. split.
  - destruct st; run_cmds; reflexivity.
  - intros Hn. destruct st; run_cmds; try reflexivity;
      zeq; try congruence; exfalso; apply Hn; auto.
Qed.

Lemma repeated_notifications_witness :
  on_release sample_cfg (on_release sample_cfg sample_hold_pending)
  = on_release sample_cfg sample_hold_pending.
Proof.
  apply (repeated_notifications sample_cfg sample_hold_pending).
  intros [H _]. discriminate.
Defined.

(** A release in [STATE_BLINK_SEQUENCE] never powers off by itself: the
    state tag, the LED, the timers and the count of [sys_poweroff] calls
    stay as they were; with blinks left nothing is emitted, with none
    left [soft_off_work] is submitted. *)
Theorem release_in_blink_defers (cfg : config) (m : sys) :
  state m = STATE_BLINK_SEQUENCE ->
  let m' := on_release cfg m in
  state m' = STATE_BLINK_SEQUENCE /\
  switch_pressed m' = false /\
  poweroffs m' = poweroffs m /\
  led_level m' = led_level m /\
  (forall w, pending w m' = pending w m) /\
  (blink_remaining m <> 0 ->
   trace m' = trace m /\ soft_off_queued m' = soft_off_queued m) /\
  (blink_remaining m = 0 ->
   trace m' = trace m ++ [ASubmit] /\ soft_off_queued m' = true).
Proof.
  intros Hst. open_sys m. subst st.
  run_cmds; zeq; repeat split; try reflexivity; try congruence;
    intros w; destruct w; reflexivity.
Qed.

Lemma release_in_blink_defers_witness :
  poweroffs (on_release sample_cfg sample_last_blink) = 0%nat /\
  trace (on_release sample_cfg sample_last_blink) = trace sample_last_blink.
Proof.
  split.
  - apply (release_in_blink_defers sample_cfg sample_last_blink).
    reflexivity.
  - apply (release_in_blink_defers sample_cfg sample_last_blink);
      [reflexivity | vm_compute; discriminate].
Defined.

(** ** Once the hold is confirmed *)

Lemma deliver_committed cfg e m : committed m -> committed (deliver cfg e m).
Proof.
  unfold committed, deliver. open_sys m.
  intros [-> | ->]; destruct e; run_cmds; auto.
Qed.

Lemma handle_committed cfg e m : committed m -> committed (handle cfg e m).
Proof.
  unfold committed. open_sys m.
  intros [-> | ->]; destruct e; run_cmds; auto.
Qed.

(** From [STATE_BLINK_SEQUENCE] the machine can only stay there or go to
    [STATE_SHUTTING_DOWN]: no handler, and no sequence of delivered
    events, presses included, takes it back to an earlier state. *)
Theorem confirmed_hold_is_final (cfg : config) (m : sys) :
  committed m ->
  (forall e, committed (handle cfg e m)) /\
  (forall evs, committed (run cfg evs m)).
Proof.
  intros Hc. split.
  - intros e. now apply handle_committed.
  - intros evs. revert m Hc.
    induction evs as [|e evs IH]; intros m Hc; [exact Hc|].
    change (run cfg (e :: evs) m) with (run cfg evs (deliver cfg e m)).
    apply IH. now apply deliver_committed.
Qed.

Lemma confirmed_hold_is_final_witness :
  committed (run sample_cfg [Press; Release; LedTimeout; Press; HoldTimer]
                 sample_last_blink).
Proof.
  apply (confirmed_hold_is_final sample_cfg sample_last_blink).
  left. reflexivity.
Defined.

(** Who writes the held flag.  Of the handlers, only the two
    notifications: after a press it is set, after a release it is
    clear, and the three timer handlers and the deferred work leave it
    alone.  [travel_switch_init] sets it on the one path where every
    GPIO call succeeded and the switch read a positive value, and
    leaves it alone on every other path. *)
Theorem held_flag_written_by_notifications (cfg : config) (e : event)
        (env : boot_env) (m : sys) :
  switch_pressed (handle cfg e m)
  = match e with
    | Press => true
    | Release => false
    | HoldTimer | LedTimeout | BlinkStep | SoftOff => switch_pressed m
    end
  /\
  (lines_ok env -> 0 < switch_gpio_get env ->
   switch_pressed (snd (travel_switch_init cfg env m)) = true)
  /\
  (~ (lines_ok env /\ 0 < switch_gpio_get env) ->
   switch_pressed (snd (travel_switch_init cfg env m)) = switch_pressed m).
Proof.
  split; [|split].
  - open_sys m. destruct e, st; run_cmds; reflexivity.
  - intros (Hl & Hlc & Hs & Hsc) Hp.
    unfold travel_switch_init. rewrite Hl, Hs. cbn.
    destruct (led_gpio_configure env <? 0) eqn:E1; [lia|].
    destruct (switch_gpio_configure env <? 0) eqn:E2; [lia|].
    destruct (switch_gpio_get env <? 0) eqn:E3; [lia|].
    destruct (switch_gpio_get env =? 0) eqn:E4; [lia|].
    open_sys m. cbn. destruct ht; reflexivity.
  - intros Hn. unfold lines_ok in Hn. unfold travel_switch_init.
    open_sys m.
    destruct (led_gpio_ready env); cbn; [|reflexivity].
    destruct (led_gpio_configure env <? 0) eqn:E1; cbn; [reflexivity|].
    destruct (switch_gpio_ready env); cbn; [|reflexivity].
    destruct (switch_gpio_configure env <? 0) eqn:E2; cbn; [reflexivity|].
    destruct (switch_gpio_get env <? 0) eqn:E3; cbn; [reflexivity|].
    destruct (switch_gpio_get env =? 0) eqn:E4; cbn; [reflexivity|].
    exfalso. apply Hn.
    apply Z.ltb_ge in E1, E2, E3. apply Z.eqb_neq in E4.
    repeat split; auto; lia.
Qed.

Lemma held_flag_written_by_notifications_witness :
  switch_pressed (snd (travel_switch_init sample_cfg env_held boot_sys))
  = true /\
  switch_pressed
    (snd (travel_switch_init sample_cfg env_released sample_hold_pending))
  = true.
Proof.
  split.
  - apply (held_flag_written_by_notifications sample_cfg Press env_held).
    + unfold lines_ok. cbn. repeat split; lia.
    + cbn. lia.
  - apply (held_flag_written_by_notifications sample_cfg Press env_released
             sample_hold_pending).
    intros [_ H]. cbn in H. lia.
Defined.

(** ** Whole gestures *)

(** A press in [STATE_IDLE] followed by the expiry of the hold timer,
    with no release in between, puts the machine into the blink
    sequence with the full count; the LED was written on at the press
    and is first written off on entering the sequence. *)
Theorem hold_confirmed (cfg : config) (m : sys) :
  reachable cfg m ->
  state m = STATE_IDLE ->
  let m' := run cfg [Press; HoldTimer] m in
  state m' = STATE_BLINK_SEQUENCE /\
  blink_remaining m' = blink_count cfg /\
  blink_led_is_on m' = false /\
  switch_pressed m' = true /\
  hold_timer m' = None /\
  blink_step m' = Some (blink_interval_ms cfg / 2) /\
  poweroffs m' = 0%nat /\
  trace m' = trace m ++
    [AState STATE_HOLD_PENDING; ALed true;
     ASchedule hold_timer_work (hold_time_ms cfg);
     AState STATE_BLINK_SEQUENCE; ALed false;
     ASchedule blink_step_work (blink_interval_ms cfg / 2)].
Proof.
  intros Hr Hst. apply reachable_timers_inv in Hr.
  unfold timers_inv in Hr. rewrite Hst in Hr.
  destruct Hr as (H1 & H2 & H3 & H4 & H5).
  open_sys m. subst. run_events.
  repeat split. list_eq.
Qed.

Lemma hold_confirmed_witness :
  state (run sample_cfg [Press; HoldTimer]
             (boot sample_cfg env_switch_not_ready))
  = STATE_BLINK_SEQUENCE.
Proof.
  apply (hold_confirmed sample_cfg (boot sample_cfg env_switch_not_ready)).
  - apply reach_boot.
  - vm_compute. reflexivity.
Defined.

(** A short press is a round trip: from [STATE_IDLE], a press, a
    release before the hold timer fires and the expiry of the cooldown
    timer bring the machine back to [STATE_IDLE] with the held flag
    clear, the LED off, nothing scheduled or queued and the blink
    counters untouched. *)
Theorem short_press_round_trip (cfg : config) (m : sys) :
  reachable cfg m ->
  state m = STATE_IDLE ->
  let m' := run cfg [Press; Release; LedTimeout] m in
  state m' = STATE_IDLE /\
  switch_pressed m' = false /\
  led_level m' = false /\
  (forall w, pending w m' = None) /\
  soft_off_queued m' = false /\
  poweroffs m' = 0%nat /\
  blink_remaining m' = blink_remaining m /\
  blink_led_is_on m' = blink_led_is_on m /\
  trace m' = trace m ++
    [AState STATE_HOLD_PENDING; ALed true;
     ASchedule hold_timer_work (hold_time_ms cfg);
     ACancel hold_timer_work; AState STATE_LED_COOLDOWN;
     ASchedule led_timeout_work (led_timeout_ms cfg);
     ALed false; AState STATE_IDLE].
Proof.
  intros Hr Hst. apply reachable_timers_inv in Hr.
  unfold timers_inv in Hr. rewrite Hst in Hr.
  destruct Hr as (H1 & H2 & H3 & H4 & H5).
  open_sys m. subst. run_events.
  repeat split; [intros w; destruct w; reflexivity | list_eq].
Qed.

Lemma short_press_round_trip_witness :
  state (run sample_cfg [Press; Release; LedTimeout]
             (boot sample_cfg env_switch_not_ready))
  = STATE_IDLE.
Proof.
  apply (short_press_round_trip sample_cfg
           (boot sample_cfg env_switch_not_ready)).
  - apply reach_boot.
  - vm_compute. reflexivity.
Defined.

(** With [blink_count] configured as 0 a confirmed hold blinks not at
    all: the first expiry of the step timer ends the sequence, the LED
    is written off twice and never on, and the machine waits for the
    release without a step timer. *)
Theorem no_blinks_configured (cfg : config) (m : sys) :
  blink_count cfg = 0 ->
  reachable cfg m ->
  state m = STATE_HOLD_PENDING \/ state m = STATE_WAKEUP_HOLD_PENDING ->
  let m' := run cfg [HoldTimer; BlinkStep] m in
  state m' = STATE_BLINK_SEQUENCE /\
  blink_step m' = None /\
  poweroffs m' = 0%nat /\
  trace m' = trace m ++
    [AState STATE_BLINK_SEQUENCE; ALed false;
     ASchedule blink_step_work (blink_interval_ms cfg / 2); ALed false] /\
  state (run cfg [Release; SoftOff] m') = STATE_SHUTTING_DOWN.
Proof.
  intros Hz Hr Hst.
  pose proof (reachable_timers_inv cfg m Hr) as Ht.
  pose proof (reachable_held_consistent cfg m Hr) as Hh.
  unfold timers_inv in Ht. unfold held_consistent in Hh.
  open_sys m.
  destruct Hst as [-> | ->]; destruct Ht as (H1 & H2 & H3 & H4 & H5);
    subst; run_events; rewrite Hz; cbn; repeat split; list_eq.
Qed.

Lemma no_blinks_configured_witness :
  let cfg := mkConfig 2000 3000 0 400 in
  blink_step (run cfg [HoldTimer; BlinkStep] (boot cfg env_held)) = None.
Proof.
  apply (no_blinks_configured (mkConfig 2000 3000 0 400)
           (boot (mkConfig 2000 3000 0 400) env_held)).
  - reflexivity.
  - apply reach_boot.
  - right. vm_compute. reflexivity.
Defined.

(** ** The terminal action, ordering by ordering *)

Lemma reachable_led_inv cfg m : reachable cfg m -> led_inv m.
Proof.
  induction 1; [apply boot_led_inv | now apply deliver_led_inv].
Qed.

Lemma reachable_counter_inv cfg m :
  config_ok cfg -> reachable cfg m -> counter_inv cfg m.
Proof.
  intros Hc. induction 1;
    [now apply boot_counter_inv | now apply deliver_counter_inv].
Qed.

(** Outside the one ordering where the release falls between the last
    decrement and the closing step, the terminal action is taken
    exactly once.  From any state reached from boot with a hold
    pending: if the release comes after [k < 2 * blink_count] step
    firings, so with blinks left, and the step timer then gets its
    remaining firings, with runs of the deferred work anywhere among
    them, [sys_poweroff] has been called exactly once; and if the
    sequence runs through all [2 * blink_count + 1] firings with the
    switch held, the machine waits without powering off, and the
    release followed by a run of the deferred work calls
    [sys_poweroff] exactly once. *)
Theorem power_off_once_outside_last_step (cfg : config) (m0 : sys) :
  config_ok cfg ->
  reachable cfg m0 ->
  state m0 = STATE_HOLD_PENDING \/ state m0 = STATE_WAKEUP_HOLD_PENDING ->
  let n := Z.to_nat (blink_count cfg) in
  (forall k rest,
      (k < 2 * n)%nat ->
      Forall blink_or_soft_off rest ->
      (2 * n + 1 - k <= count_occ event_eq_dec rest BlinkStep)%nat ->
      let m' := run cfg (HoldTimer :: repeat BlinkStep k ++ Release :: rest)
                    m0 in
      poweroffs m' = 1%nat /\ state m' = STATE_SHUTTING_DOWN)
  /\
  (forall rest,
      Forall blink_or_soft_off rest ->
      In SoftOff rest ->
      let mid := run cfg (HoldTimer :: repeat BlinkStep (2 * n + 1)) m0 in
      (state mid = STATE_BLINK_SEQUENCE /\ poweroffs mid = 0%nat /\
       blink_step mid = None) /\
      let m' := run cfg (Release :: rest) mid in
      poweroffs m' = 1%nat /\ state m' = STATE_SHUTTING_DOWN).
Proof.
  intros Hc Hr Hst n.
  destruct (reachable_hold_armed cfg m0 Hr Hst) as [Ha Hheld].
  destruct (blink_entry_blinking cfg m0 Hc Ha) as (Hb1 & Hs1 & Hp1 & Hq1).
  fold n in Hs1.
  split.
  - intros k rest Hk Hall Hcount m'. subst m'.
    change (run cfg (HoldTimer :: repeat BlinkStep k ++ Release :: rest) m0)
      with (run cfg (repeat BlinkStep k ++ Release :: rest)
                (deliver cfg HoldTimer m0)).
    rewrite run_app.
    destruct (blink_steps_run cfg k (deliver cfg HoldTimer m0) Hb1)
      as (Hb2 & Hs2 & Hp2 & Hq2); [lia|].
    set (m2 := run cfg (repeat BlinkStep k) (deliver cfg HoldTimer m0)) in *.
    change (run cfg (Release :: rest) m2)
      with (run cfg rest (deliver cfg Release m2)).
    destruct (release_while_blinking cfg m2 Hb2) as (Hb3 & Hs3 & Hp3 & Hq3).
    pose proof (blinks_left m2 Hb2) as Hz.
    assert (Hne : (steps_left m2 =? 1)%nat = false)
      by (apply Nat.eqb_neq; lia).
    rewrite Hne in Hz. rewrite Hz in Hq3.
    apply finish_after_release;
      [exact Hb3 | exact Hp3 | congruence | exact Hall |].
    rewrite Hs3, Hs2, Hs1. exact Hcount.
  - intros rest Hall Hin mid.
    assert (Hmid : state mid = STATE_BLINK_SEQUENCE /\ poweroffs mid = 0%nat /\
                   blink_step mid = None /\ blink_remaining mid = 0).
    { subst mid.
      change (run cfg (HoldTimer :: repeat BlinkStep (2 * n + 1)) m0)
        with (run cfg (repeat BlinkStep (2 * n + 1))
                  (deliver cfg HoldTimer m0)).
      replace (2 * n + 1)%nat with (S (2 * n)) by lia.
      cbn [repeat]. rewrite repeat_cons, run_app.
      destruct (blink_steps_run cfg (2 * n) (deliver cfg HoldTimer m0) Hb1)
        as (Hb2 & Hs2 & Hp2 & Hq2); [lia|].
      set (m2 := run cfg (repeat BlinkStep (2 * n))
                     (deliver cfg HoldTimer m0)) in *.
      change (run cfg [BlinkStep] m2) with (deliver cfg BlinkStep m2).
      destruct (blink_step_fires cfg m2 Hb2) as [_ Hlast].
      assert (H1 : steps_left m2 = 1%nat) by lia.
      specialize (Hlast H1).
      rewrite Hp2, Hp1, Hheld in Hlast.
      destruct Hlast as (A & B & C & D & _). auto. }
    destruct Hmid as (A & B & C & D).
    split; [auto|]. intros m'. subst m'.
    change (run cfg (Release :: rest) mid)
      with (run cfg rest (deliver cfg Release mid)).
    destruct (release_while_waiting cfg mid A B D) as (E & F & G).
    apply soft_off_after_wait; try assumption. congruence.
Qed.

Lemma power_off_once_outside_last_step_witness :
  let m0 := run sample_cfg [Press] (boot sample_cfg env_switch_not_ready) in
  poweroffs (run sample_cfg
               (HoldTimer :: repeat BlinkStep 5 ++
                Release :: [SoftOff; BlinkStep; BlinkStep; SoftOff])
               m0) = 1%nat /\
  poweroffs (run sample_cfg [Release; BlinkStep; SoftOff]
               (run sample_cfg (HoldTimer :: repeat BlinkStep (2 * 3 + 1))
                    m0)) = 1%nat.
Proof.
  assert (Hc : config_ok sample_cfg).
  { unfold config_ok, uint32, UINT32_MAX. cbn. lia. }
  assert (Hr : reachable sample_cfg
                 (run sample_cfg [Press]
                      (boot sample_cfg env_switch_not_ready)))
    by apply run_reachable, reach_boot.
  destruct (power_off_once_outside_last_step sample_cfg _ Hc Hr)
    as [Hbefore Hafter]; [left; vm_compute; reflexivity|].
  split.
  - apply (Hbefore 5%nat [SoftOff; BlinkStep; BlinkStep; SoftOff]).
    + cbn. lia.
    + repeat (apply Forall_cons;
                [first [left; reflexivity | right; reflexivity]|]).
      apply Forall_nil.
    + vm_compute. lia.
  - apply (Hafter [BlinkStep; SoftOff]).
    + repeat (apply Forall_cons;
                [first [left; reflexivity | right; reflexivity]|]).
      apply Forall_nil.
    + cbn. auto.
Defined.

Lemma deliver_closing_inv cfg e m :
  closing_inv m -> closing_inv (deliver cfg e m).
Proof.
  unfold closing_inv, deliver. open_sys m.
  destruct e, st; intros H; run_cmds; intros; zeq;
    try discriminate; try congruence; auto.
Qed.

Lemma reachable_closing_inv cfg m : reachable cfg m -> closing_inv m.
Proof.
  induction 1; [|now apply deliver_closing_inv].
  unfold closing_inv, boot, travel_switch_init, boot_sys.
  break_match; run_cmds; intros; discriminate.
Qed.

Lemma run_shutting_down cfg evs : forall m,
  state m = STATE_SHUTTING_DOWN ->
  state (run cfg evs m) = STATE_SHUTTING_DOWN.
Proof.
  induction evs as [|e evs IH]; intros m Hst; [exact Hst|].
  change (run cfg (e :: evs) m) with (run cfg evs (deliver cfg e m)).
  apply IH. now apply deliver_shutting_down.
Qed.

Lemma steps_reach_shutdown cfg k : forall m,
  blinking m -> switch_pressed m = false -> (steps_left m <= k)%nat ->
  state (run cfg (repeat BlinkStep k) m) = STATE_SHUTTING_DOWN.
Proof.
  induction k as [|k IH]; intros m Hb Hp Hk.
  - destruct Hb as (_ & _ & _ & Hr & Hlit). unfold steps_left in Hk.
    destruct (blink_led_is_on m); [specialize (Hlit eq_refl)|]; lia.
  - change (run cfg (repeat BlinkStep (S k)) m)
      with (run cfg (repeat BlinkStep k) (deliver cfg BlinkStep m)).
    destruct (Nat.eq_dec (steps_left m) 1) as [H1 | H1].
    + destruct (blink_step_closes cfg m Hb H1 Hp) as (A & _).
      now apply run_shutting_down.
    + assert (Hge : (1 <= steps_left m)%nat).
      { destruct Hb as (_ & _ & _ & Hr & Hlit). unfold steps_left.
        destruct (blink_led_is_on m); [specialize (Hlit eq_refl)|]; lia. }
      destruct (blink_step_fires cfg m Hb) as [Hmore _].
      destruct Hmore as (Hb' & Hs & Hp' & _); [lia|].
      apply IH; [exact Hb' | congruence | lia].
Qed.

Lemma idle_steps cfg k : forall m,
  blink_step m = None -> run cfg (repeat BlinkStep k) m = m.
Proof.
  induction k as [|k IH]; intros m Hbs; [reflexivity|].
  change (run cfg (repeat BlinkStep (S k)) m)
    with (run cfg (repeat BlinkStep k) (deliver cfg BlinkStep m)).
  assert (Hd : deliver cfg BlinkStep m = m).
  { unfold deliver. rewrite Hbs. reflexivity. }
  rewrite Hd. now apply IH.
Qed.

(** No armed shutdown is left hanging.  From any state of the blink
    sequence reached from boot, whatever presses and releases came
    before and however far the blinking has got, a release followed by
    [2 * blink_count + 1] occasions for the step timer and a run of the
    deferred work ends in [STATE_SHUTTING_DOWN], with [sys_poweroff]
    called at least once and at most twice. *)
Theorem release_ends_in_power_off (cfg : config) (m : sys) :
  config_ok cfg ->
  reachable cfg m ->
  state m = STATE_BLINK_SEQUENCE ->
  let n := Z.to_nat (blink_count cfg) in
  let m' := run cfg (Release :: repeat BlinkStep (2 * n + 1) ++ [SoftOff]) m in
  state m' = STATE_SHUTTING_DOWN /\
  (1 <= poweroffs m' <= 2)%nat.
Proof.
  intros Hc Hr Hst n m'.
  assert (Hs' : state m' = STATE_SHUTTING_DOWN).
  { subst m'.
    change (run cfg (Release :: repeat BlinkStep (2 * n + 1) ++ [SoftOff]) m)
      with (run cfg (repeat BlinkStep (2 * n + 1) ++ [SoftOff])
                (deliver cfg Release m)).
    rewrite run_app.
    pose proof (reachable_timers_inv cfg m Hr) as Ht.
    pose proof (reachable_closing_inv cfg m Hr) as Hcl.
    pose proof (reachable_counter_inv cfg m Hc Hr) as Hrg.
    unfold counter_inv in Hrg.
    pose proof (reachable_led_inv cfg m Hr) as Hled.
    unfold timers_inv in Ht. unfold led_inv in Hled. rewrite Hst in Ht, Hled.
    destruct Ht as (_ & _ & Hbs & _ & Hpo).
    destruct Hled as [_ Hlit].
    destruct Hc as (_ & _ & Hb & _). unfold uint32 in Hb.
    destruct (blink_step m) as [d|] eqn:Ebs.
    - assert (Hbl : blinking m).
      { unfold blinking. rewrite Ebs. repeat split; auto; try lia.
        - discriminate.
        - intros Hl. specialize (Hlit Hl). lia. }
      destruct (release_while_blinking cfg m Hbl) as (Hb3 & Hs3 & Hp3 & _).
      change (run cfg [SoftOff] ?x) with (deliver cfg SoftOff x).
      apply deliver_shutting_down.
      apply steps_reach_shutdown; [exact Hb3 | exact Hp3 |].
      rewrite Hs3. unfold steps_left. subst n.
      destruct (blink_led_is_on m); lia.
    - specialize (Hcl Hst Ebs).
      destruct (release_while_waiting cfg m Hst Hpo Hcl) as (E & F & G).
      rewrite idle_steps by congruence.
      change (run cfg [SoftOff] ?x) with (deliver cfg SoftOff x).
      now apply (soft_off_runs cfg (deliver cfg Release m)). }
  split; [exact Hs'|].
  assert (Hr' : reachable cfg m') by (subst m'; now apply run_reachable).
  apply reachable_timers_inv in Hr'. unfold timers_inv in Hr'.
  rewrite Hs' in Hr'. destruct Hr' as (_ & _ & _ & [H | [H _]]); lia.
Qed.

Lemma release_ends_in_power_off_witness :
  state (run sample_cfg
             (Release :: repeat BlinkStep (2 * 3 + 1) ++ [SoftOff])
             (run sample_cfg [Press; HoldTimer; BlinkStep; Release; Press]
                  (boot sample_cfg env_switch_not_ready)))
  = STATE_SHUTTING_DOWN.
Proof.
  apply (release_ends_in_power_off sample_cfg).
  - unfold config_ok, uint32, UINT32_MAX. cbn. lia.
  - apply run_reachable, reach_boot.
  - vm_compute. reflexivity.
Defined.
